(** * Manifest packagers: a shallow embedding and its properties

    The repository holds two scripts,
    [deployment/homebrew/packager.py] (Script A) and
    [deployment/scoop/packager.py] (Script B).  Each one reads positional
    arguments from [sys.argv], loads a template file, calls
    [string.Template.safe_substitute] and writes the result to a file.

    A Python [str] is modelled by [string]; a character is a code point
    below 256.  The dictionary given to [safe_substitute] and the file
    system are finite maps ([gmap]) from strings. *)

From Stdlib Require Import Ascii String NArith Lia.
From stdpp Require Import gmap strings list fin_maps.

Local Open Scope char_scope.
Local Open Scope stdpp_scope.

(** ** Strings *)

Module Str.

(** [concat] of a list of pieces, as [''.join(pieces)]. *)
Fixpoint join (l : list string) : string :=
  match l with
  | [] => ""
  | s :: l' => s +:+ join l'
  end.

(** Every character of [s] satisfies [p]. *)
Fixpoint all (p : ascii → bool) (s : string) : bool :=
  match s with
  | "" => true
  | String c s' => p c && all p s'
  end.

(** The characters of [s] that satisfy [p], in order. *)
Fixpoint filter (p : ascii → bool) (s : string) : string :=
  match s with
  | "" => ""
  | String c s' => if p c then String c (filter p s') else filter p s'
  end.

(** [s.startswith(p)], returning what follows the prefix. *)
Fixpoint strip_prefix (p s : string) : option string :=
  match p, s with
  | "", _ => Some s
  | String a p', String b s' =>
      if Ascii.eqb a b then strip_prefix p' s' else None
  | String _ _, "" => None
  end.

(** First character, if any. *)
Definition head (s : string) : option ascii :=
  match s with
  | "" => None
  | String c _ => Some c
  end.

(** Last character, if any. *)
Fixpoint last (s : string) : option ascii :=
  match s with
  | "" => None
  | String c "" => Some c
  | String _ s' => last s'
  end.

End Str.

(** ** [str] methods used by the scripts *)

Module PyStr.

(** [str.isspace] on one character: CPython's [Py_UNICODE_ISSPACE]
    restricted to code points below 256. *)
Definition isspace (c : ascii) : bool :=
  let n := N_of_ascii c in
  ((9 <=? n) && (n <=? 13) || (28 <=? n) && (n <=? 32)
   || (n =? 133) || (n =? 160))%N.

(** [s.lstrip()] *)
Fixpoint lstrip (s : string) : string :=
  match s with
  | "" => ""
  | String c s' => if isspace c then lstrip s' else s
  end.

(** [s.rstrip()] *)
Fixpoint rstrip (s : string) : string :=
  match s with
  | "" => ""
  | String c s' =>
      match rstrip s' with
      | "" => if isspace c then "" else String c ""
      | r => String c r
      end
  end.

(** [s.strip()]: both ends. *)
Definition strip (s : string) : string := rstrip (lstrip s).

(** [s.replace(old, new)] for a non-empty [old]: the occurrences of
    [old] are found from the left and do not overlap.  [skip] counts the
    characters of the occurrence just replaced that are still ahead. *)
Fixpoint replace_from (old new : string) (skip : nat) (s : string) : string :=
  match s with
  | "" => ""
  | String c s' =>
      match skip with
      | S k => replace_from old new k s'
      | O =>
          match Str.strip_prefix old s with
          | Some _ => new +:+ replace_from old new (String.length old - 1) s'
          | None => String c (replace_from old new 0 s')
          end
      end
  end.

(** [s.replace(old, new)]; with an empty [old] Python puts [new] before
    every character and at the end. *)
Definition replace (old new s : string) : string :=
  match old with
  | "" =>
      new +:+ (fix go (s : string) : string :=
                 match s with
                 | "" => ""
                 | String c s' => String c (new +:+ go s')
                 end) s
  | String _ _ => replace_from old new 0 s
  end.

End PyStr.

(** ** [string.Template] *)

Module Template.

(** [delimiter = '$'] *)
Definition delimiter : ascii := "$"%char.

(** [idpattern] is the ASCII-only class [_a-z] followed by any number
    of [_a-z0-9], under [flags = re.IGNORECASE]: the first character is
    an ASCII letter or an underscore, the following ones may also be
    ASCII digits. *)
Definition is_id_start (c : ascii) : bool :=
  let n := N_of_ascii c in
  ((n =? 95) || (97 <=? n) && (n <=? 122) || (65 <=? n) && (n <=? 90))%N.

Definition is_id_char (c : ascii) : bool :=
  let n := N_of_ascii c in
  (is_id_start c || (48 <=? n) && (n <=? 57))%N.

(** The longest prefix of identifier characters, and what follows it:
    the greedy repetition of [_a-z0-9]. *)
Fixpoint span_id (s : string) : string * string :=
  match s with
  | "" => ("", "")
  | String c s' =>
      if is_id_char c
      then let (i, r) := span_id s' in (String c i, r)
      else ("", s)
  end.

(** [idpattern] matched at the start of [s]: the identifier and the
    rest of the text. *)
Definition idpattern (s : string) : option (string * string) :=
  match s with
  | "" => None
  | String c s' =>
      if is_id_start c
      then let (i, r) := span_id s' in Some (String c i, r)
      else None
  end.

(** A match of [pattern]: which of its named groups took part.
<<
    \$(?:
      (?P<escaped>\$)  |   # Escape sequence of two delimiters
      (?P<named>ID)    |   # delimiter and a Python identifier
      {(?P<braced>ID)} |   # delimiter and a braced identifier
      (?P<invalid>)        # Other ill-formed delimiter exprs
    )
>> *)
Inductive match_object : Type :=
  | Escaped
  | Named (id : string)
  | Braced (id : string)
  | Invalid.

(** [mo.group()]: the text of the whole match. *)
Definition group (mo : match_object) : string :=
  match mo with
  | Escaped => "$$"
  | Named id => String delimiter id
  | Braced id => String delimiter (String "{" (id +:+ "}"))
  | Invalid => "$"
  end.

(** [pattern.match] at the start of [s]: the alternatives are tried in
    the order of the pattern, and the rest of the text is returned with
    the match.  An identifier is taken greedily; giving characters back
    never helps the braced alternative, because a shorter identifier is
    followed by an identifier character and not by a closing brace. *)
Definition pattern (s : string) : option (match_object * string) :=
  match s with
  | "" => None
  | String c r =>
      if Ascii.eqb c delimiter then
        match r with
        | String d r' =>
            if Ascii.eqb d delimiter then Some (Escaped, r')
            else
              match idpattern r with
              | Some (id, r1) => Some (Named id, r1)
              | None =>
                  if Ascii.eqb d "{" then
                    match idpattern r' with
                    | Some (id, String e r2) =>
                        if Ascii.eqb e "}" then Some (Braced id, r2)
                        else Some (Invalid, r)
                    | _ => Some (Invalid, r)
                    end
                  else Some (Invalid, r)
              end
        | "" => Some (Invalid, r)
        end
      else None
  end.

Section Substitute.

Variable mapping : gmap string string.

(** The helper [convert] of [safe_substitute]:
<<
    named = mo.group('named') or mo.group('braced')
    if named is not None:
        try:
            return str(mapping[named])
        except KeyError:
            return mo.group()
    if mo.group('escaped') is not None:
        return self.delimiter
    if mo.group('invalid') is not None:
        return mo.group()
>> *)
Definition convert (mo : match_object) : string :=
  match mo with
  | Named id | Braced id =>
      match mapping !! id with
      | Some v => v
      | None => group mo
      end
  | Escaped => String delimiter ""
  | Invalid => group mo
  end.

(** [pattern.sub(convert, template)]: the text is scanned from the
    left; where the pattern matches, the match is replaced by
    [convert mo] and the scan goes on after it; any other character
    is copied.  Every match takes at least one character, so [fuel]
    equal to the length of the text is enough. *)
Fixpoint sub_loop (fuel : nat) (s : string) : string :=
  match fuel with
  | O => ""
  | S fuel' =>
      match pattern s with
      | Some (mo, r) => convert mo +:+ sub_loop fuel' r
      | None =>
          match s with
          | "" => ""
          | String c r => String c (sub_loop fuel' r)
          end
      end
  end.

Definition safe_substitute (template : string) : string :=
  sub_loop (String.length template) template.

End Substitute.

End Template.

(** ** The process and its environment *)

Module Sys.

(** The uncaught exceptions that end a run. *)
Inductive exn : Type :=
  | IndexError
  | OSError (path : string).

Inductive mode : Type := R | W.

(** What a run does to its environment, in order. *)
Inductive event : Type :=
  | Print (text : string)
  | Open (path : string) (m : mode)
  | Read (path : string)
  | Write (path : string) (data : string).

(** [files] holds the text of every file that can be read, as text
    mode gives it; a path outside it is missing or unreadable.
    [readonly] holds the paths that cannot be opened for writing. *)
Record world : Type := World {
  files : gmap string string;
  readonly : gset string;
  trace : list event
}.

Inductive result (A : Type) : Type :=
  | Return (a : A)
  | Raise (e : exn).
Arguments Return {A} a.
Arguments Raise {A} e.

(** State and exceptions. *)
Definition M (A : Type) : Type := world → result A * world.

Definition ret {A} (a : A) : M A := λ w, (Return a, w).

Definition bind {A B} (m : M A) (k : A → M B) : M B :=
  λ w, match m w with
       | (Return a, w') => k a w'
       | (Raise e, w') => (Raise e, w')
       end.

Definition raise {A} (e : exn) : M A := λ w, (Raise e, w).

Definition log (e : event) : M unit :=
  λ w, (Return tt, World (files w) (readonly w) (trace w ++ [e])).

(** [args[i]] *)
Definition getitem (args : list string) (i : nat) : M string :=
  match args !! i with
  | Some a => ret a
  | None => raise IndexError
  end.

(** [print(text)] *)
Definition print (text : string) : M unit := log (Print text).

(** [open(path, "r")] *)
Definition open_r (path : string) : M unit :=
  λ w, match files w !! path with
       | Some _ => log (Open path R) w
       | None => (Raise (OSError path), w)
       end.

(** [f.read()] on a file opened for reading *)
Definition read (path : string) : M string :=
  λ w, match files w !! path with
       | Some text => bind (log (Read path)) (λ _, ret text) w
       | None => (Raise (OSError path), w)
       end.

(** [open(path, "w")]: the file is created, or truncated when it is
    there already. *)
Definition open_w (path : string) : M unit :=
  λ w, if decide (path ∈ readonly w)
       then (Raise (OSError path), w)
       else (Return tt,
             World (<[path := ""]> (files w)) (readonly w)
                   (trace w ++ [Open path W])).

(** [f.write(data)] on a file opened for writing *)
Definition write (path data : string) : M unit :=
  λ w, (Return tt,
        World (<[path := default "" (files w !! path) +:+ data]> (files w))
              (readonly w) (trace w ++ [Write path data])).

#[global] Instance M_ret : MRet M := @ret.
#[global] Instance M_bind : MBind M := λ A B k m, bind m k.

End Sys.

Import Template Sys.

(** ** The two scripts *)

Definition nl : string := String (ascii_of_nat 10) "".

Definition banner_top : string :=
  nl +:+ "================== Generated package file ==================" +:+ nl.
Definition banner_bottom : string :=
  nl +:+ "============================================================" +:+ nl.

(** [deployment/homebrew/packager.py] *)
Module Homebrew.

(** The keyword arguments of the call of [safe_substitute]. *)
Definition kwargs (version hash_mac hash_mac_arm hash_linux : string)
  : gmap string string :=
  {[ "version" := version; "hash_mac" := hash_mac;
     "hash_mac_arm" := hash_mac_arm; "hash_linux" := hash_linux ]}.

Definition main (args : list string) : M unit :=
  version ← getitem args 1;
  template_file_path ← getitem args 2;
  generated_file_path ← getitem args 3;
  a4 ← getitem args 4;
  let hash_mac := PyStr.strip a4 in
  a5 ← getitem args 5;
  let hash_mac_arm := PyStr.strip a5 in
  a6 ← getitem args 6;
  let hash_linux := PyStr.strip a6 in
  print "Generating formula";;
  print ("     VERSION: " +:+ version);;
  print ("     TEMPLATE PATH: " +:+ template_file_path);;
  print ("     SAVING AT: " +:+ generated_file_path);;
  print ("     MAC HASH: " +:+ hash_mac);;
  print ("     MAC ARM HASH: " +:+ hash_mac_arm);;
  print ("     LINUX HASH: " +:+ hash_linux);;
  open_r template_file_path;;
  text ← read template_file_path;
  let substitute :=
    safe_substitute (kwargs version hash_mac hash_mac_arm hash_linux) text in
  print banner_top;;
  print substitute;;
  print banner_bottom;;
  open_w generated_file_path;;
  write generated_file_path substitute.

End Homebrew.

(** [deployment/scoop/packager.py] *)
Module Scoop.

Definition kwargs (version64 hash_64 : string) : gmap string string :=
  {[ "version64" := version64; "hash_64" := hash_64 ]}.

Definition main (args : list string) : M unit :=
  a1 ← getitem args 1;
  let version64 := PyStr.replace "v" "" a1 in
  template_file_path ← getitem args 2;
  generated_file_path ← getitem args 3;
  a4 ← getitem args 4;
  let hash_64 := PyStr.strip a4 in
  print "Generating formula";;
  print ("     VERSION: " +:+ version64);;
  print ("     TEMPLATE PATH: " +:+ template_file_path);;
  print ("     SAVING AT: " +:+ generated_file_path);;
  print ("     HASH: " +:+ hash_64);;
  open_r template_file_path;;
  text ← read template_file_path;
  let substitute := safe_substitute (kwargs version64 hash_64) text in
  print banner_top;;
  print substitute;;
  print banner_bottom;;
  open_w generated_file_path;;
  write generated_file_path substitute.

End Scoop.

(** * Vocabulary of the properties *)

(** ** The grammar of a template

    A template is a sequence of items: characters that are copied and
    the four kinds of match of the pattern.  The grammar below is
    declarative; it does not mention the scanner. *)

Module Grammar.

Import Template.

(** [id] is a whole match of [idpattern]. *)
Definition is_identifier (id : string) : bool :=
  match id with
  | "" => false
  | String c r => is_id_start c && Str.all is_id_char r
  end.

(** The text [t] begins with a character that would extend an
    identifier ending just before it. *)
Definition id_continues (t : string) : bool :=
  match t with
  | "" => false
  | String c _ => is_id_char c
  end.

Inductive item : Type :=
  | Char (c : ascii)
  | Token (mo : match_object).

(** The text an item stands for in the template. *)
Definition source (it : item) : string :=
  match it with
  | Char c => String c ""
  | Token mo => group mo
  end.

(** After a delimiter, [t] goes on to form an escape, a named or a
    braced placeholder. *)
Definition continues_token (t : string) : Prop :=
  (∃ r, t = String delimiter r)
  ∨ (∃ id r, is_identifier id = true ∧ t = id +:+ r)
  ∨ (∃ id r, is_identifier id = true ∧ t = String "{" (id +:+ String "}" r)).

Inductive parses : string → list item → Prop :=
  | parses_end :
      parses "" []
  | parses_char c t its :
      c ≠ delimiter → parses t its →
      parses (String c t) (Char c :: its)
  | parses_escaped t its :
      parses t its →
      parses (String delimiter (String delimiter t)) (Token Escaped :: its)
  | parses_named id t its :
      is_identifier id = true → id_continues t = false → parses t its →
      parses (String delimiter (id +:+ t)) (Token (Named id) :: its)
  | parses_braced id t its :
      is_identifier id = true → parses t its →
      parses (String delimiter (String "{" (id +:+ String "}" t)))
             (Token (Braced id) :: its)
  | parses_invalid t its :
      ¬ continues_token t → parses t its →
      parses (String delimiter t) (Token Invalid :: its).

(** The items of a template, computed with the scanner's pattern. *)
Fixpoint lex_loop (fuel : nat) (s : string) : list item :=
  match fuel with
  | O => []
  | S fuel' =>
      match pattern s with
      | Some (mo, r) => Token mo :: lex_loop fuel' r
      | None =>
          match s with
          | "" => []
          | String c r => Char c :: lex_loop fuel' r
          end
      end
  end.

Definition lex (template : string) : list item :=
  lex_loop (String.length template) template.

(** *** Rendering, as the specification words it *)

(** The name of a placeholder item. *)
Definition placeholder (it : item) : option string :=
  match it with
  | Token (Named id) | Token (Braced id) => Some id
  | _ => None
  end.

(** The value of a recognized placeholder: one whose name is a key of
    the substitution map. *)
Definition recognized (mapping : gmap string string) (it : item)
  : option string :=
  id ← placeholder it; mapping !! id.

(** "Every occurrence of each recognized placeholder replaced by its
    corresponding argument value, and all other text (including
    unrecognized placeholder-like tokens) unchanged." *)
Definition claimed_item (mapping : gmap string string) (it : item) : string :=
  default (source it) (recognized mapping it).

Definition claimed_render (mapping : gmap string string) (its : list item)
  : string :=
  Str.join (claimed_item mapping <$> its).

(** The same, with an escape rendered as one delimiter. *)
Definition rendered_item (mapping : gmap string string) (it : item) : string :=
  match it with
  | Token Escaped => String delimiter ""
  | _ => claimed_item mapping it
  end.

Definition rendered (mapping : gmap string string) (its : list item)
  : string :=
  Str.join (rendered_item mapping <$> its).

End Grammar.

Import Grammar.

(** ** Arguments and runs *)

(** The character at an end of a string, if there is one, is not
    whitespace. *)
Definition not_space (o : option ascii) : Prop :=
  ∀ c, o = Some c → PyStr.isspace c = false.

Definition not_v (c : ascii) : bool := negb (Ascii.eqb c "v").

Definition not_delimiter (c : ascii) : bool := negb (Ascii.eqb c "$").

(** [s.replace("$$", "$")] *)
Definition unescape (s : string) : string := PyStr.replace "$$" "$" s.

(** The version as C2 words it: exactly one leading [v] is stripped, and
    nothing else is touched. *)
Definition strip_leading_v (s : string) : string :=
  match s with
  | "" => ""
  | String c r => if Ascii.eqb c "v" then r else s
  end.

(** A run ended without an exception and left [text] in the file [path]. *)
Definition writes (run : result unit * world) (path text : string) : Prop :=
  run.1 = Return tt ∧ files run.2 !! path = Some text.

(** ** Sample environments *)

Definition sample_text : string := "url $$ ${version} $hash_mac ${other}".

Definition sample_world : world := World {[ "t.rb" := sample_text ]} ∅ [].

Definition version_world : world := World {[ "t.json" := "${version64}" ]} ∅ [].

Definition hash_world : world :=
  World {[ "a.rb" := "${hash_mac} ${hash_mac_arm} ${hash_linux}";
           "b.json" := "${hash_64}" ]} ∅ [].

(** An environment that differs from [sample_world] in everything but
    the template: other files, a stale output, earlier events. *)
Definition other_world : world :=
  World {[ "t.rb" := sample_text; "o.rb" := "stale"; "x" := "y" ]}
        {[ "x" ]} [Print "earlier"].

(** [sample_world] with its output path closed to writing. *)
Definition locked_world : world :=
  World {[ "t.rb" := sample_text ]} {[ "o.rb" ]} [].


Definition no_delimiter_world : world :=
  World {[ "t" := "version {version} hash_mac" ]} ∅ [].

Definition plain_text : string := "cost: $$5 for ${user} at $HOME, $ 1 ${x".

Definition plain_world : world := World {[ "t" := plain_text ]} ∅ [].

Definition homebrew_example_world : world :=
  World {[ "formula.rb.template" := "hash: ${hash_mac}, version: ${version}" ]}
        ∅ [].

Definition scoop_example_world : world :=
  World {[ "manifest.json.template" := "v=${version64} h=${hash_64}" ]} ∅ [].

(** * Properties *)

(** ** Concatenation *)

Module StrFacts.

Lemma app_cons (c : ascii) (s t : string) :
  String c s +:+ t = String c (s +:+ t).
Proof. reflexivity. Qed.

Lemma app_nil_l (t : string) : "" +:+ t = t.
Proof. reflexivity. Qed.

Lemma app_nil_r (s : string) : s +:+ "" = s.
Proof. induction s as [|c s IH]; [done|]. by rewrite app_cons, IH. Qed.

Lemma app_assoc (s t u : string) : (s +:+ t) +:+ u = s +:+ (t +:+ u).
Proof. induction s as [|c s IH]; [done|]. by rewrite !app_cons, IH. Qed.

Lemma length_app (s t : string) :
  String.length (s +:+ t) = String.length s + String.length t.
Proof. induction s as [|c s IH]; [done|]. rewrite app_cons. simpl. lia. Qed.

End StrFacts.

(** ** [strip] and [replace] *)

Module PyStrFacts.

Import PyStr.

Local Arguments Ascii.eqb : simpl never.

Lemma lstrip_spec s :
  ∃ l, s = l +:+ lstrip s ∧ Str.all isspace l = true
       ∧ not_space (Str.head (lstrip s)).
Proof.
  induction s as [|c s (l & IH1 & IH2 & IH3)].
  - by exists "".
  - simpl. destruct (isspace c) eqn:Hc.
    + exists (String c l). simpl. rewrite Hc, IH2.
      repeat split; [|done]. by rewrite StrFacts.app_cons, <- IH1.
    + exists "". repeat split. by intros ? [= <-].
Qed.

Lemma rstrip_spec s :
  ∃ r, s = rstrip s +:+ r ∧ Str.all isspace r = true
       ∧ not_space (Str.last (rstrip s)).
Proof.
  induction s as [|c s (r & IH1 & IH2 & IH3)].
  - by exists "".
  - simpl. destruct (rstrip s) as [|d q] eqn:Hs.
    + rewrite StrFacts.app_nil_l in IH1. subst r.
      destruct (isspace c) eqn:Hc.
      * exists (String c s). simpl. by rewrite Hc, IH2.
      * exists s. repeat split; [done|]. by intros ? [= <-].
    + exists r. repeat split; [|done..]. by rewrite StrFacts.app_cons, <- IH1.
Qed.

Lemma rstrip_head s :
  not_space (Str.head s) → not_space (Str.head (rstrip s)).
Proof.
  destruct s as [|c s]; [done|]. simpl. intros Hc.
  destruct (rstrip s); [|done]. by destruct (isspace c).
Qed.

(** [strip] removes a run of whitespace at each end and nothing else:
    what is left is the text in between, which neither starts nor ends
    with whitespace. *)
Lemma strip_spec s :
  ∃ l r, s = l +:+ strip s +:+ r
         ∧ Str.all isspace l = true ∧ Str.all isspace r = true
         ∧ not_space (Str.head (strip s)) ∧ not_space (Str.last (strip s)).
Proof.
  destruct (lstrip_spec s) as (l & Hl1 & Hl2 & Hl3).
  destruct (rstrip_spec (lstrip s)) as (r & Hr1 & Hr2 & Hr3).
  exists l, r. unfold strip. rewrite <- Hr1, <- Hl1.
  repeat split; try done. by apply rstrip_head.
Qed.

(** A text without whitespace at its ends is left as it is. *)
Lemma lstrip_id s : not_space (Str.head s) → lstrip s = s.
Proof.
  destruct s as [|c s]; [done|]. simpl. intros Hc. by rewrite (Hc c).
Qed.

Lemma rstrip_id s : not_space (Str.last s) → rstrip s = s.
Proof.
  induction s as [|c s IH]; [done|]. simpl. intros Hc.
  destruct s as [|d s].
  - simpl. by rewrite (Hc c).
  - rewrite IH; done.
Qed.

Lemma strip_id s :
  not_space (Str.head s) → not_space (Str.last s) → strip s = s.
Proof. intros Hh Hl. unfold strip. by rewrite (lstrip_id _ Hh), rstrip_id. Qed.

Lemma lstrip_all_space r : Str.all isspace r = true → lstrip r = "".
Proof.
  induction r as [|c r IH]; [done|]. simpl.
  intros [-> Hr]%andb_prop. by apply IH.
Qed.

Lemma rstrip_all_space r : Str.all isspace r = true → rstrip r = "".
Proof.
  induction r as [|c r IH]; [done|]. simpl.
  intros [-> Hr]%andb_prop. by rewrite IH.
Qed.

Lemma lstrip_app_space l s :
  Str.all isspace l = true → lstrip (l +:+ s) = lstrip s.
Proof.
  induction l as [|c l IH]; [done|]. simpl.
  intros [-> Hl]%andb_prop. by apply IH.
Qed.

Lemma rstrip_app_space s r :
  Str.all isspace r = true → rstrip (s +:+ r) = rstrip s.
Proof.
  intros Hr. induction s as [|c s IH].
  - by apply rstrip_all_space.
  - rewrite StrFacts.app_cons. simpl. by rewrite IH.
Qed.

(** [strip] gives back the text between two runs of whitespace, when
    that text has no whitespace at its ends: the decomposition of
    [strip_spec] is the only one. *)
Lemma strip_middle l m r :
  Str.all isspace l = true → Str.all isspace r = true →
  not_space (Str.head m) → not_space (Str.last m) →
  strip (l +:+ m +:+ r) = m.
Proof.
  intros Hl Hr Hh Hlast. unfold strip. rewrite (lstrip_app_space _ _ Hl).
  destruct m as [|c m].
  - rewrite StrFacts.app_nil_l, (lstrip_all_space _ Hr). done.
  - rewrite lstrip_id.
    + by rewrite (rstrip_app_space _ _ Hr), rstrip_id.
    + by rewrite StrFacts.app_cons.
Qed.

(** [s.replace("v", "")] drops every [v] of [s] and keeps the rest. *)
Lemma replace_v s : replace "v" "" s = Str.filter not_v s.
Proof.
  unfold replace. induction s as [|c s IH]; [done|].
  simpl. unfold not_v. rewrite (Ascii.eqb_sym c).
  destruct (Ascii.eqb "v" c); simpl; by rewrite IH.
Qed.

Lemma filter_all p s : Str.all p s = true → Str.filter p s = s.
Proof.
  induction s as [|c s IH]; [done|]. simpl.
  intros [-> ?]%andb_prop. by rewrite IH.
Qed.

(** *** [s.replace("$$", "$")] *)

Lemma unescape_char c s :
  c ≠ "$"%char → unescape (String c s) = String c (unescape s).
Proof.
  intros Hc. unfold unescape. simpl.
  by destruct (Ascii.eqb_spec "$" c) as [<-|].
Qed.

Lemma unescape_escape s :
  unescape (String "$" (String "$" s)) = String "$" (unescape s).
Proof. reflexivity. Qed.

Lemma unescape_single s :
  Str.head s ≠ Some "$"%char →
  unescape (String "$" s) = String "$" (unescape s).
Proof.
  intros Hs. unfold unescape. simpl. destruct s as [|d s]; [done|].
  simpl in *. by destruct (Ascii.eqb_spec "$" d) as [<-|].
Qed.

Lemma unescape_app r s :
  Str.all not_delimiter r = true → unescape (r +:+ s) = r +:+ unescape s.
Proof.
  induction r as [|c r IH]; [done|]. simpl. intros [Hc Hr]%andb_prop.
  rewrite !StrFacts.app_cons, unescape_char, IH; [done..|].
  intros ->. done.
Qed.

(** *** Idempotence *)

Lemma strip_idem s : strip (strip s) = strip s.
Proof.
  destruct (strip_spec s) as (l & r & _ & _ & _ & Hh & Hl).
  by apply strip_id.
Qed.

Lemma all_filter p s : Str.all p (Str.filter p s) = true.
Proof.
  induction s as [|c s IH]; [done|]. simpl.
  destruct (p c) eqn:Hc; [|done]. simpl. by rewrite Hc.
Qed.

Lemma replace_v_idem s : replace "v" "" (replace "v" "" s) = replace "v" "" s.
Proof. rewrite !replace_v. apply filter_all, all_filter. Qed.

End PyStrFacts.

(** ** Identifiers and the pattern *)

Module TemplateFacts.

Lemma is_id_start_char c : is_id_start c = true → is_id_char c = true.
Proof. unfold is_id_char. by intros ->. Qed.

Lemma id_char_not_delimiter c : is_id_char c = true → c ≠ delimiter.
Proof. by intros H ->. Qed.

Lemma id_char_not_brace c : is_id_char c = true → c ≠ "}"%char.
Proof. by intros H ->. Qed.

Lemma span_id_spec s :
  s = (span_id s).1 +:+ (span_id s).2
  ∧ Str.all is_id_char (span_id s).1 = true
  ∧ id_continues (span_id s).2 = false.
Proof.
  induction s as [|c s (IH1 & IH2 & IH3)]; [done|]. simpl.
  destruct (is_id_char c) eqn:Hc.
  - destruct (span_id s) as [i r]. simpl in *.
    rewrite Hc, IH2. repeat split; [|done]. by rewrite StrFacts.app_cons, <- IH1.
  - simpl. by rewrite Hc.
Qed.

Lemma span_id_app i r :
  Str.all is_id_char i = true → id_continues r = false →
  span_id (i +:+ r) = (i, r).
Proof.
  intros Hi Hr. induction i as [|c i IH]; simpl in *.
  - destruct r as [|d r]; [done|]. simpl in *. by rewrite Hr.
  - apply andb_prop in Hi as [Hc Hi]. by rewrite Hc, (IH Hi).
Qed.

Lemma idpattern_Some s id r :
  idpattern s = Some (id, r) ↔
  s = id +:+ r ∧ is_identifier id = true ∧ id_continues r = false.
Proof.
  split.
  - destruct s as [|c s]; [done|]. simpl.
    destruct (is_id_start c) eqn:Hc; [|done].
    destruct (span_id_spec s) as (H1 & H2 & H3).
    destruct (span_id s) as [i r']. intros [= <- <-]. simpl in *.
    rewrite Hc, H2. by rewrite StrFacts.app_cons, <- H1.
  - intros (-> & Hid & Hr). destruct id as [|c i]; [done|]. simpl in *.
    apply andb_prop in Hid as [Hc Hi].
    by rewrite Hc, (span_id_app _ _ Hi Hr).
Qed.

Lemma idpattern_None s :
  idpattern s = None ↔
  match s with "" => True | String c _ => is_id_start c = false end.
Proof.
  destruct s as [|c s]; [done|]. simpl.
  destruct (is_id_start c); [|done]. by destruct (span_id s).
Qed.

Lemma identifier_head id :
  is_identifier id = true →
  ∃ c i, id = String c i ∧ is_id_start c = true ∧ Str.all is_id_char i = true.
Proof.
  destruct id as [|c i]; [done|]. simpl. intros [??]%andb_prop. eauto.
Qed.

Lemma closing_brace_stops r : id_continues (String "}" r) = false.
Proof. reflexivity. Qed.

(** What a match of the pattern says about the text. *)
Lemma pattern_inv s mo r :
  pattern s = Some (mo, r) →
  match mo with
  | Escaped => s = String delimiter (String delimiter r)
  | Named id =>
      s = String delimiter (id +:+ r)
      ∧ is_identifier id = true ∧ id_continues r = false
  | Braced id =>
      s = String delimiter (String "{" (id +:+ String "}" r))
      ∧ is_identifier id = true
  | Invalid => s = String delimiter r ∧ ¬ continues_token r
  end.
Proof.
  destruct s as [|c s]; [done|]. simpl.
  destruct (Ascii.eqb_spec c delimiter) as [->|]; [|done].
  destruct s as [|d s].
  { intros [= <- <-]. split; [done|].
    intros [(?&?)|[(id&?&Hid&?)|(?&?&?&?)]]; try done.
    apply identifier_head in Hid as (?&?&->&_). done. }
  destruct (Ascii.eqb_spec d delimiter) as [->|Hd]; [by intros [= <- <-]|].
  destruct (idpattern (String d s)) as [[id r1]|] eqn:Hn.
  { intros [= <- <-]. apply idpattern_Some in Hn as (-> & ? & ?). done. }
  pose proof (proj1 (idpattern_None _) Hn) as Hstart.
  assert (∀ id' r', is_identifier id' = true → String d s ≠ id' +:+ r')
    as Hnamed.
  { intros id' r' (c'&i'&->&Hc'&_)%identifier_head [= -> _]. congruence. }
  destruct (Ascii.eqb_spec d "{") as [->|Hb].
  - assert (idpattern s = None ∨ (∃ id, idpattern s = Some (id, ""))
            ∨ (∃ id e r2, idpattern s = Some (id, String e r2))) as Hcases.
    { destruct (idpattern s) as [[id [|e r2]]|]; eauto 6. }
    assert (∀ id' r', is_identifier id' = true → s = id' +:+ String "}" r' →
              idpattern s = Some (id', String "}" r')) as Hbr.
    { intros id' r' ? ->. by apply idpattern_Some. }
    destruct Hcases as [Hs|[(id&Hs)|(id&e&r2&Hs)]]; rewrite Hs.
    + intros [= <- <-]. split; [done|].
      intros [(?&[=])|[(id'&r'&?&?)|(id'&r'&Hid'&[= Hq])]].
      * by eapply Hnamed.
      * rewrite (Hbr _ _ Hid' Hq) in Hs. done.
    + intros [= <- <-]. split; [done|].
      intros [(?&[=])|[(id'&r'&?&?)|(id'&r'&Hid'&[= Hq])]].
      * by eapply Hnamed.
      * rewrite (Hbr _ _ Hid' Hq) in Hs. done.
    + destruct (Ascii.eqb_spec e "}") as [->|He].
      * intros [= <- <-]. apply idpattern_Some in Hs as (-> & ? & _). done.
      * intros [= <- <-]. split; [done|].
        intros [(?&[=])|[(id'&r'&?&?)|(id'&r'&Hid'&[= Hq])]].
        -- by eapply Hnamed.
        -- rewrite (Hbr _ _ Hid' Hq) in Hs. congruence.
  - intros [= <- <-]. split; [done|].
    intros [(?&[= ?])|[(id'&r'&?&?)|(id'&r'&?&[= ? ?])]]; try done.
    by eapply Hnamed.
Qed.

Lemma pattern_None s :
  pattern s = None →
  match s with "" => True | String c _ => c ≠ delimiter end.
Proof.
  destruct s as [|c s]; [done|]. simpl.
  destruct (Ascii.eqb_spec c delimiter) as [->|]; [|done].
  destruct s as [|d s]; [done|].
  destruct (Ascii.eqb d delimiter); [done|].
  destruct (idpattern (String d s)) as [[??]|]; [done|].
  destruct (Ascii.eqb d "{"); [|done].
  destruct (idpattern s) as [[? [|e ?]]|]; try done.
  by destruct (Ascii.eqb e "}").
Qed.

(** The other way round: a text of one of the five shapes is matched
    accordingly. *)
Lemma pattern_char c t : c ≠ delimiter → pattern (String c t) = None.
Proof. intros Hc. simpl. by destruct (Ascii.eqb_spec c delimiter). Qed.

Lemma pattern_escaped t :
  pattern (String delimiter (String delimiter t)) = Some (Escaped, t).
Proof. reflexivity. Qed.

Lemma pattern_named id t :
  is_identifier id = true → id_continues t = false →
  pattern (String delimiter (id +:+ t)) = Some (Named id, t).
Proof.
  intros Hid Ht.
  assert (idpattern (id +:+ t) = Some (id, t)) as Hm by by apply idpattern_Some.
  apply identifier_head in Hid as (c & i & -> & Hc & _).
  rewrite StrFacts.app_cons in *. unfold pattern. rewrite Hm.
  apply is_id_start_char, id_char_not_delimiter in Hc.
  by destruct (Ascii.eqb_spec c delimiter).
Qed.

Lemma pattern_braced id t :
  is_identifier id = true →
  pattern (String delimiter (String "{" (id +:+ String "}" t)))
  = Some (Braced id, t).
Proof.
  intros Hid.
  assert (idpattern (id +:+ String "}" t) = Some (id, String "}" t)) as Hm
    by by apply idpattern_Some.
  unfold pattern. by rewrite Hm.
Qed.

Lemma pattern_invalid t :
  ¬ continues_token t → pattern (String delimiter t) = Some (Invalid, t).
Proof.
  intros Ht. destruct (pattern (String delimiter t)) as [[mo r]|] eqn:Hp.
  - pose proof (pattern_inv _ _ _ Hp) as Hinv. destruct mo.
    + injection Hinv as ->. destruct Ht. left. eauto.
    + destruct Hinv as ([= ->] & ? & _). destruct Ht. right; left. eauto.
    + destruct Hinv as ([= ->] & ?). destruct Ht. right; right. eauto.
    + by destruct Hinv as ([= ->] & _).
  - by apply pattern_None in Hp.
Qed.

Lemma pattern_group s mo r : pattern s = Some (mo, r) → s = group mo +:+ r.
Proof.
  intros Hp. apply pattern_inv in Hp. destruct mo; simpl.
  - done.
  - by destruct Hp as (-> & _).
  - destruct Hp as (-> & _). by rewrite !StrFacts.app_cons, StrFacts.app_assoc.
  - by destruct Hp as (-> & _).
Qed.

Lemma pattern_shorter s mo r :
  pattern s = Some (mo, r) → String.length r < String.length s.
Proof.
  intros ->%pattern_group. rewrite StrFacts.length_app. destruct mo; simpl; lia.
Qed.

(** The scanner's lexer computes the one parse of the grammar. *)
Lemma lex_loop_parses n s :
  String.length s ≤ n → parses s (lex_loop n s).
Proof.
  revert s. induction n as [|n IH]; intros s Hn.
  { destruct s; [constructor | simpl in Hn; lia]. }
  simpl. destruct (pattern s) as [[mo r]|] eqn:Hp.
  - pose proof (pattern_shorter _ _ _ Hp).
    pose proof (pattern_inv _ _ _ Hp) as Hinv.
    assert (parses r (lex_loop n r)) by (apply IH; lia).
    destruct mo.
    + subst s. by constructor.
    + destruct Hinv as (-> & ? & ?). by constructor.
    + destruct Hinv as (-> & ?). by constructor.
    + destruct Hinv as (-> & ?). by constructor.
  - apply pattern_None in Hp. destruct s as [|c s]; [constructor|].
    constructor; [done|]. apply IH. simpl in Hn. lia.
Qed.

Lemma lex_loop_S n s :
  lex_loop (S n) s =
  match pattern s with
  | Some (mo, r) => Token mo :: lex_loop n r
  | None =>
      match s with
      | "" => []
      | String c r => Char c :: lex_loop n r
      end
  end.
Proof. reflexivity. Qed.

Lemma parses_lex_loop s its :
  parses s its → ∀ n, String.length s ≤ n → lex_loop n s = its.
Proof.
  induction 1 as [|c t its Hc _ IH|t its _ IH|id t its Hid Ht _ IH
                  |id t its Hid _ IH|t its Ht _ IH]; intros n Hn.
  - by destruct n.
  - destruct n as [|n]; [simpl in Hn; lia|]. rewrite lex_loop_S.
    rewrite (pattern_char _ _ Hc), IH; [done|]. simpl in Hn. lia.
  - destruct n as [|n]; [simpl in Hn; lia|]. rewrite lex_loop_S.
    rewrite pattern_escaped, IH; [done|]. simpl in Hn. lia.
  - destruct n as [|n]; [simpl in Hn; lia|]. rewrite lex_loop_S.
    rewrite (pattern_named _ _ Hid Ht), IH; [done|].
    simpl in Hn. rewrite StrFacts.length_app in Hn. lia.
  - destruct n as [|n]; [simpl in Hn; lia|]. rewrite lex_loop_S.
    rewrite (pattern_braced _ _ Hid), IH; [done|].
    simpl in Hn. rewrite StrFacts.length_app in Hn. simpl in Hn. lia.
  - destruct n as [|n]; [simpl in Hn; lia|]. rewrite lex_loop_S.
    rewrite (pattern_invalid _ Ht), IH; [done|]. simpl in Hn. lia.
Qed.

Lemma lex_parses s : parses s (lex s).
Proof. by apply lex_loop_parses. Qed.

Lemma parses_unique s its : parses s its → its = lex s.
Proof. intros H. symmetry. by apply parses_lex_loop. Qed.

Lemma parses_source s its : parses s its → Str.join (source <$> its) = s.
Proof.
  induction 1 as [|c t its _ _ IH|t its _ IH|id t its _ _ _ IH
                  |id t its _ _ IH|t its _ _ IH];
    rewrite ?fmap_cons; cbn [Str.join source group]; rewrite ?IH; try done.
  by rewrite !StrFacts.app_cons, StrFacts.app_assoc.
Qed.

(** *** The scanner *)

Section Scanner.

Variable mapping : gmap string string.

Lemma sub_loop_S n s :
  sub_loop mapping (S n) s =
  match pattern s with
  | Some (mo, r) => convert mapping mo +:+ sub_loop mapping n r
  | None =>
      match s with
      | "" => ""
      | String c r => String c (sub_loop mapping n r)
      end
  end.
Proof. reflexivity. Qed.

(** Fuel beyond the length of the text changes nothing: the loop
    never runs out of fuel before the end of the text. *)
Lemma sub_loop_fuel n k s :
  String.length s ≤ n → String.length s ≤ k →
  sub_loop mapping n s = sub_loop mapping k s.
Proof.
  revert k s. induction n as [|n IH]; intros k s Hn Hk.
  { destruct s; [by destruct k | simpl in Hn; lia]. }
  destruct k as [|k].
  { destruct s; [done | simpl in Hk; lia]. }
  rewrite !sub_loop_S. destruct (pattern s) as [[mo r]|] eqn:Hp.
  - pose proof (pattern_shorter _ _ _ Hp). rewrite (IH k r); [done|lia..].
  - destruct s as [|c s]; [done|]. simpl in Hn, Hk.
    rewrite (IH k s); [done|lia..].
Qed.

Lemma sub_loop_enough n s :
  String.length s ≤ n → sub_loop mapping n s = safe_substitute mapping s.
Proof. intros Hn. by apply sub_loop_fuel. Qed.

Lemma safe_substitute_unfold s :
  safe_substitute mapping s =
  match pattern s with
  | Some (mo, r) => convert mapping mo +:+ safe_substitute mapping r
  | None =>
      match s with
      | "" => ""
      | String c r => String c (safe_substitute mapping r)
      end
  end.
Proof.
  destruct s as [|c s]; [done|].
  unfold safe_substitute at 1. cbn [String.length]. rewrite sub_loop_S.
  destruct (pattern (String c s)) as [[mo r]|] eqn:Hp.
  - apply pattern_shorter in Hp. rewrite sub_loop_enough; [done|].
    simpl in Hp. lia.
  - done.
Qed.

End Scanner.

Lemma convert_rendered_item mapping mo :
  convert mapping mo = rendered_item mapping (Token mo).
Proof.
  destruct mo; try done; unfold rendered_item, claimed_item, recognized;
    simpl; by destruct (mapping !! id).
Qed.

(** The scanner renders the parse of the template item by item. *)
Lemma safe_substitute_parses mapping s its :
  parses s its → safe_substitute mapping s = rendered mapping its.
Proof.
  unfold rendered.
  induction 1 as [|c t its Hc _ IH|t its _ IH|id t its Hid Ht _ IH
                  |id t its Hid _ IH|t its Ht _ IH];
    rewrite safe_substitute_unfold, ?fmap_cons; cbn [Str.join].
  - done.
  - by rewrite (pattern_char _ _ Hc), IH.
  - by rewrite pattern_escaped, IH, convert_rendered_item.
  - by rewrite (pattern_named _ _ Hid Ht), IH, convert_rendered_item.
  - by rewrite (pattern_braced _ _ Hid), IH, convert_rendered_item.
  - by rewrite (pattern_invalid _ Ht), IH, convert_rendered_item.
Qed.

(** *** Templates without a recognized placeholder *)

Import PyStrFacts.

Lemma all_impl (p q : ascii → bool) s :
  (∀ c, p c = true → q c = true) → Str.all p s = true → Str.all q s = true.
Proof.
  intros Hpq. induction s as [|c s IH]; [done|]. simpl.
  intros [Hc Hs]%andb_prop. by rewrite (Hpq _ Hc), IH.
Qed.

Lemma identifier_no_delimiter id :
  is_identifier id = true → Str.all not_delimiter id = true.
Proof.
  intros (c & i & -> & Hc & Hi)%identifier_head. simpl.
  apply andb_true_intro. split.
  - apply is_id_start_char in Hc. unfold not_delimiter.
    by destruct (Ascii.eqb_spec c "$") as [->|].
  - apply (all_impl is_id_char); [|done].
    intros d Hd. unfold not_delimiter.
    by destruct (Ascii.eqb_spec d "$") as [->|].
Qed.

Lemma rendered_cons mapping it its :
  rendered mapping (it :: its)
  = rendered_item mapping it +:+ rendered mapping its.
Proof. reflexivity. Qed.

Lemma unrecognized_item mapping it :
  recognized mapping it = None →
  rendered_item mapping it
  = match it with Token Escaped => String delimiter "" | _ => source it end.
Proof.
  unfold rendered_item, claimed_item. intros ->. by destruct it as [|[]].
Qed.

(** With no recognized placeholder, rendering is [replace("$$", "$")]. *)
Lemma rendered_unescape mapping s its :
  parses s its → Forall (λ it, recognized mapping it = None) its →
  rendered mapping its = unescape s.
Proof.
  induction 1 as [|c t its Hc _ IH|t its _ IH|id t its Hid Ht _ IH
                  |id t its Hid _ IH|t its Ht _ IH]; [done|..];
    intros [Hit Hits]%Forall_cons;
    rewrite rendered_cons, (unrecognized_item _ _ Hit), (IH Hits);
    cbn [source group].
  - by rewrite unescape_char.
  - by rewrite unescape_escape.
  - pose proof (identifier_no_delimiter _ Hid) as Hnd.
    rewrite unescape_single, unescape_app; [done..|].
    apply identifier_head in Hid as (c & i & -> & Hc & _).
    rewrite StrFacts.app_cons. simpl. intros [= ->]. done.
  - pose proof (identifier_no_delimiter _ Hid) as Hnd.
    rewrite unescape_single by done.
    rewrite unescape_char by done.
    rewrite unescape_app by done.
    rewrite unescape_char by done.
    by rewrite !StrFacts.app_cons, StrFacts.app_assoc.
  - rewrite unescape_single; [done|].
    destruct t as [|d t]; [done|]. simpl. intros [= ->].
    destruct Ht. left. eauto.
Qed.

(** *** A placeholder at the head of a text *)

Lemma safe_substitute_braced mapping id t :
  is_identifier id = true →
  safe_substitute mapping (String delimiter (String "{" (id +:+ String "}" t)))
  = convert mapping (Braced id) +:+ safe_substitute mapping t.
Proof.
  intros Hid. by rewrite safe_substitute_unfold, (pattern_braced _ _ Hid).
Qed.

Lemma safe_substitute_named mapping id t :
  is_identifier id = true → id_continues t = false →
  safe_substitute mapping (String delimiter (id +:+ t))
  = convert mapping (Named id) +:+ safe_substitute mapping t.
Proof.
  intros Hid Ht. by rewrite safe_substitute_unfold, (pattern_named _ _ Hid Ht).
Qed.

(** *** Texts without a delimiter *)

Lemma safe_substitute_plain mapping t :
  Str.all not_delimiter t = true → safe_substitute mapping t = t.
Proof.
  induction t as [|c t IH]; [done|]. simpl. intros [Hc Ht]%andb_prop.
  rewrite safe_substitute_unfold, pattern_char, IH; [done..|].
  intros ->. done.
Qed.

Lemma safe_substitute_plain_app mapping p t :
  Str.all not_delimiter p = true →
  safe_substitute mapping (p +:+ t) = p +:+ safe_substitute mapping t.
Proof.
  induction p as [|c p IH]; [done|]. simpl. intros [Hc Hp]%andb_prop.
  rewrite !StrFacts.app_cons, safe_substitute_unfold, pattern_char, IH;
    [done..|].
  intros ->. done.
Qed.

Lemma safe_substitute_escaped mapping t :
  safe_substitute mapping (String delimiter (String delimiter t))
  = String delimiter (safe_substitute mapping t).
Proof. by rewrite safe_substitute_unfold, pattern_escaped. Qed.

(** *** The keys that matter *)

Lemma rendered_agree m1 m2 its :
  (∀ it id, it ∈ its → placeholder it = Some id → m1 !! id = m2 !! id) →
  rendered m1 its = rendered m2 its.
Proof.
  induction its as [|it its IH]; [done|]. intros Hag.
  rewrite !rendered_cons, IH.
  - f_equal. unfold rendered_item, claimed_item, recognized.
    destruct (placeholder it) as [id|] eqn:Hph; [|done]. simpl.
    rewrite (Hag it id); [done| |done]. apply list_elem_of_here.
  - intros it' id Hin. apply Hag. by apply list_elem_of_further.
Qed.

End TemplateFacts.

(** ** Runs of the scripts *)

Module HomebrewFacts.

Import PyStr Homebrew.

(** With a readable template and a writable output path the run
    succeeds; all it changes is the output file. *)
Lemma homebrew_main_spec prog version tpl out h1 h2 h3 extra w text :
  files w !! tpl = Some text → out ∉ readonly w →
  ∃ evs,
    main (prog :: version :: tpl :: out :: h1 :: h2 :: h3 :: extra) w
    = (Return tt,
       World (<[out := safe_substitute
                         (kwargs version (strip h1) (strip h2) (strip h3))
                         text]> (files w))
             (readonly w) (trace w ++ evs)).
Proof.
  intros Ht Ho. unfold main, mbind, M_bind, bind, getitem, open_r, read. simpl.
  rewrite Ht. simpl. rewrite Ht. simpl. unfold open_w. simpl.
  destruct (decide (out ∈ readonly w)) as [|_]; [done|]. unfold write. simpl.
  rewrite lookup_insert_eq, insert_insert_eq. simpl.
  rewrite <- !app_assoc. simpl. eexists. reflexivity.
Qed.

Lemma homebrew_main_writes prog version tpl out h1 h2 h3 extra w text :
  files w !! tpl = Some text → out ∉ readonly w →
  writes (main (prog :: version :: tpl :: out :: h1 :: h2 :: h3 :: extra) w)
         out
         (safe_substitute (kwargs version (strip h1) (strip h2) (strip h3))
                          text).
Proof.
  intros Ht Ho.
  destruct (homebrew_main_spec prog version tpl out h1 h2 h3 extra w text Ht Ho)
    as [evs ->].
  split; [done|]. apply lookup_insert_eq.
Qed.

(** The argument list is too short: the first lookup out of range
    raises, before anything is printed or opened. *)
Lemma homebrew_main_short args w :
  length args < 7 → main args w = (Raise IndexError, w).
Proof.
  intros Hn. do 7 (destruct args as [|? args]; [reflexivity|]).
  simpl in Hn. lia.
Qed.

(** The template cannot be read: the run stops at [open], after the
    summary of the inputs was printed. *)
Lemma homebrew_main_unreadable prog version tpl out h1 h2 h3 extra w :
  files w !! tpl = None →
  main (prog :: version :: tpl :: out :: h1 :: h2 :: h3 :: extra) w
  = (Raise (OSError tpl),
     World (files w) (readonly w)
           (trace w ++ (Print <$>
              ["Generating formula";
               "     VERSION: " +:+ version;
               "     TEMPLATE PATH: " +:+ tpl;
               "     SAVING AT: " +:+ out;
               "     MAC HASH: " +:+ strip h1;
               "     MAC ARM HASH: " +:+ strip h2;
               "     LINUX HASH: " +:+ strip h3]))).
Proof.
  intros Ht. unfold main, mbind, M_bind, bind, getitem, open_r. simpl.
  rewrite Ht. by rewrite <- !app_assoc.
Qed.

(** The events of a successful run, in order. *)
Lemma homebrew_main_events prog version tpl out h1 h2 h3 extra w text :
  files w !! tpl = Some text → out ∉ readonly w →
  main (prog :: version :: tpl :: out :: h1 :: h2 :: h3 :: extra) w
  = (Return tt,
     World (<[out := safe_substitute
                       (kwargs version (strip h1) (strip h2) (strip h3))
                       text]> (files w))
           (readonly w)
           (trace w ++
              [Print "Generating formula";
               Print ("     VERSION: " +:+ version);
               Print ("     TEMPLATE PATH: " +:+ tpl);
               Print ("     SAVING AT: " +:+ out);
               Print ("     MAC HASH: " +:+ strip h1);
               Print ("     MAC ARM HASH: " +:+ strip h2);
               Print ("     LINUX HASH: " +:+ strip h3);
               Open tpl R; Read tpl;
               Print banner_top;
               Print (safe_substitute
                        (kwargs version (strip h1) (strip h2) (strip h3)) text);
               Print banner_bottom;
               Open out W;
               Write out
                 (safe_substitute
                    (kwargs version (strip h1) (strip h2) (strip h3)) text)])).
Proof.
  intros Ht Ho. unfold main, mbind, M_bind, bind, getitem, open_r, read. simpl.
  rewrite Ht. simpl. rewrite Ht. simpl. unfold open_w. simpl.
  destruct (decide (out ∈ readonly w)) as [|_]; [done|]. unfold write. simpl.
  rewrite lookup_insert_eq, insert_insert_eq. simpl.
  by rewrite <- !app_assoc.
Qed.

(** The output cannot be opened for writing: the run stops there, after
    the rendered text was printed. *)
Lemma homebrew_main_unwritable prog version tpl out h1 h2 h3 extra w text :
  files w !! tpl = Some text → out ∈ readonly w →
  main (prog :: version :: tpl :: out :: h1 :: h2 :: h3 :: extra) w
  = (Raise (OSError out),
     World (files w) (readonly w)
           (trace w ++
              [Print "Generating formula";
               Print ("     VERSION: " +:+ version);
               Print ("     TEMPLATE PATH: " +:+ tpl);
               Print ("     SAVING AT: " +:+ out);
               Print ("     MAC HASH: " +:+ strip h1);
               Print ("     MAC ARM HASH: " +:+ strip h2);
               Print ("     LINUX HASH: " +:+ strip h3);
               Open tpl R; Read tpl;
               Print banner_top;
               Print (safe_substitute
                        (kwargs version (strip h1) (strip h2) (strip h3)) text);
               Print banner_bottom])).
Proof.
  intros Ht Ho. unfold main, mbind, M_bind, bind, getitem, open_r, read. simpl.
  rewrite Ht. simpl. rewrite Ht. simpl. unfold open_w. simpl.
  destruct (decide (out ∈ readonly w)) as [_|]; [|done].
  by rewrite <- !app_assoc.
Qed.


End HomebrewFacts.

Module ScoopFacts.

Import PyStr Scoop.

Lemma scoop_main_spec prog version tpl out h extra w text :
  files w !! tpl = Some text → out ∉ readonly w →
  ∃ evs,
    main (prog :: version :: tpl :: out :: h :: extra) w
    = (Return tt,
       World (<[out := safe_substitute
                         (kwargs (replace "v" "" version) (strip h)) text]>
                (files w))
             (readonly w) (trace w ++ evs)).
Proof.
  intros Ht Ho. unfold main, mbind, M_bind, bind, getitem, open_r, read. simpl.
  rewrite Ht. simpl. rewrite Ht. simpl. unfold open_w. simpl.
  destruct (decide (out ∈ readonly w)) as [|_]; [done|]. unfold write. simpl.
  rewrite lookup_insert_eq, insert_insert_eq. simpl.
  rewrite <- !app_assoc. simpl. eexists. reflexivity.
Qed.

Lemma scoop_main_writes prog version tpl out h extra w text :
  files w !! tpl = Some text → out ∉ readonly w →
  writes (main (prog :: version :: tpl :: out :: h :: extra) w) out
         (safe_substitute (kwargs (replace "v" "" version) (strip h)) text).
Proof.
  intros Ht Ho.
  destruct (scoop_main_spec prog version tpl out h extra w text Ht Ho) as [evs ->].
  split; [done|]. apply lookup_insert_eq.
Qed.

Lemma scoop_main_short args w :
  length args < 5 → main args w = (Raise IndexError, w).
Proof.
  intros Hn. do 5 (destruct args as [|? args]; [reflexivity|]).
  simpl in Hn. lia.
Qed.

Lemma scoop_main_unreadable prog version tpl out h extra w :
  files w !! tpl = None →
  main (prog :: version :: tpl :: out :: h :: extra) w
  = (Raise (OSError tpl),
     World (files w) (readonly w)
           (trace w ++ (Print <$>
              ["Generating formula";
               "     VERSION: " +:+ replace "v" "" version;
               "     TEMPLATE PATH: " +:+ tpl;
               "     SAVING AT: " +:+ out;
               "     HASH: " +:+ strip h]))).
Proof.
  intros Ht. unfold main, mbind, M_bind, bind, getitem, open_r. simpl.
  rewrite Ht. by rewrite <- !app_assoc.
Qed.

Lemma scoop_main_events prog version tpl out h extra w text :
  files w !! tpl = Some text → out ∉ readonly w →
  main (prog :: version :: tpl :: out :: h :: extra) w
  = (Return tt,
     World (<[out := safe_substitute
                       (kwargs (replace "v" "" version) (strip h)) text]>
              (files w))
           (readonly w)
           (trace w ++
              [Print "Generating formula";
               Print ("     VERSION: " +:+ replace "v" "" version);
               Print ("     TEMPLATE PATH: " +:+ tpl);
               Print ("     SAVING AT: " +:+ out);
               Print ("     HASH: " +:+ strip h);
               Open tpl R; Read tpl;
               Print banner_top;
               Print (safe_substitute
                        (kwargs (replace "v" "" version) (strip h)) text);
               Print banner_bottom;
               Open out W;
               Write out
                 (safe_substitute
                    (kwargs (replace "v" "" version) (strip h)) text)])).
Proof.
  intros Ht Ho. unfold main, mbind, M_bind, bind, getitem, open_r, read. simpl.
  rewrite Ht. simpl. rewrite Ht. simpl. unfold open_w. simpl.
  destruct (decide (out ∈ readonly w)) as [|_]; [done|]. unfold write. simpl.
  rewrite lookup_insert_eq, insert_insert_eq. simpl.
  by rewrite <- !app_assoc.
Qed.

Lemma scoop_main_unwritable prog version tpl out h extra w text :
  files w !! tpl = Some text → out ∈ readonly w →
  main (prog :: version :: tpl :: out :: h :: extra) w
  = (Raise (OSError out),
     World (files w) (readonly w)
           (trace w ++
              [Print "Generating formula";
               Print ("     VERSION: " +:+ replace "v" "" version);
               Print ("     TEMPLATE PATH: " +:+ tpl);
               Print ("     SAVING AT: " +:+ out);
               Print ("     HASH: " +:+ strip h);
               Open tpl R; Read tpl;
               Print banner_top;
               Print (safe_substitute
                        (kwargs (replace "v" "" version) (strip h)) text);
               Print banner_bottom])).
Proof.
  intros Ht Ho. unfold main, mbind, M_bind, bind, getitem, open_r, read. simpl.
  rewrite Ht. simpl. rewrite Ht. simpl. unfold open_w. simpl.
  destruct (decide (out ∈ readonly w)) as [_|]; [|done].
  by rewrite <- !app_assoc.
Qed.


End ScoopFacts.

(** * The claims *)

Import PyStr PyStrFacts TemplateFacts.

(** ** Rendering *)

(** C1, as the specification states it, fails on a template made of an
    escape: the template [$$] has no placeholder, yet Script A does not
    write it back verbatim. *)
Lemma escape_is_not_copied_verbatim :
  ¬ ∃ its,
      parses "$$" its
      ∧ writes (Homebrew.main ["packager.py"; "1.0.0"; "t.rb"; "o.rb"; "a"; "b"; "c"]
                              (World {[ "t.rb" := "$$" ]} ∅ []))
               "o.rb"
               (claimed_render (Homebrew.kwargs "1.0.0" "a" "b" "c") its).
Proof.
  intros (its & Hp & _ & Hw). apply parses_unique in Hp. subst its.
  vm_compute in Hw. discriminate.
Qed.

Example escape_renders_one_delimiter :
  writes (Homebrew.main ["packager.py"; "1.0.0"; "t.rb"; "o.rb"; "a"; "b"; "c"]
                        (World {[ "t.rb" := "$$" ]} ∅ []))
         "o.rb" "$".
Proof. by vm_compute. Qed.

(** C1 (amended). For every template text and every argument list of
    sufficient length, each script ends without an error and its rendered
    output is the template text, item by item of its one parse, in which
    every occurrence of a recognized placeholder ([version], [hash_mac],
    [hash_mac_arm], [hash_linux] for Script A; [version64], [hash_64] for
    Script B) is replaced by its processed argument value, every escape
    [$$] is rendered as one [$], and all other text, placeholder-like
    tokens outside the substitution map included, is left verbatim. *)
Theorem rendered_output_replaces_recognized_placeholders :
  ∀ (w : world) (tpl out text prog version h1 h2 h3 : string)
    (extra : list string),
    files w !! tpl = Some text → out ∉ readonly w →
    ∃ its,
      parses text its
      ∧ (∀ its', parses text its' → its' = its)
      ∧ Str.join (source <$> its) = text
      ∧ writes (Homebrew.main
                  (prog :: version :: tpl :: out :: h1 :: h2 :: h3 :: extra) w)
               out
               (rendered
                  (Homebrew.kwargs version (strip h1) (strip h2) (strip h3)) its)
      ∧ writes (Scoop.main (prog :: version :: tpl :: out :: h1 :: extra) w)
               out
               (rendered (Scoop.kwargs (replace "v" "" version) (strip h1)) its).
Proof.
  intros w tpl out text prog version h1 h2 h3 extra Ht Ho.
  exists (lex text). pose proof (lex_parses text) as Hp.
  split; [done|]. split; [apply parses_unique|].
  split; [by apply parses_source|].
  rewrite <- !(safe_substitute_parses _ _ _ Hp).
  split.
  - by apply HomebrewFacts.homebrew_main_writes.
  - by apply ScoopFacts.scoop_main_writes.
Qed.

Lemma rendered_output_replaces_recognized_placeholders_witness :
  files sample_world !! "t.rb" = Some sample_text
  ∧ ("o.rb" ∉ readonly sample_world)
  ∧ (∃ its,
      parses sample_text its
      ∧ (∀ its', parses sample_text its' → its' = its)
      ∧ Str.join (source <$> its) = sample_text
      ∧ writes (Homebrew.main
                  ["packager.py"; "1.0.0"; "t.rb"; "o.rb"; " ab "; "cd"; "ef"]
                  sample_world)
               "o.rb"
               (rendered
                  (Homebrew.kwargs "1.0.0" (strip " ab ") (strip "cd") (strip "ef"))
                  its)
      ∧ writes (Scoop.main ["packager.py"; "1.0.0"; "t.rb"; "o.rb"; " ab "]
                           sample_world)
               "o.rb"
               (rendered (Scoop.kwargs (replace "v" "" "1.0.0") (strip " ab ")) its)).
Proof.
  split; [reflexivity|]. split; [apply not_elem_of_empty|].
  apply (rendered_output_replaces_recognized_placeholders
           sample_world "t.rb" "o.rb" sample_text "packager.py" "1.0.0"
           " ab " "cd" "ef" []);
    [reflexivity | apply not_elem_of_empty].
Defined.

(** ** Argument processing *)

Lemma render_version64 v h :
  safe_substitute (Scoop.kwargs v h) "${version64}" = v.
Proof. vm_compute. apply StrFacts.app_nil_r. Qed.

Lemma render_hash_64 v h : safe_substitute (Scoop.kwargs v h) "${hash_64}" = h.
Proof. vm_compute. apply StrFacts.app_nil_r. Qed.

Lemma render_version v a b c :
  safe_substitute (Homebrew.kwargs v a b c) "${version}" = v.
Proof. vm_compute. apply StrFacts.app_nil_r. Qed.

Lemma render_hashes v a b c :
  safe_substitute (Homebrew.kwargs v a b c)
                  "${hash_mac} ${hash_mac_arm} ${hash_linux}"
  = a +:+ " " +:+ b +:+ " " +:+ c.
Proof.
  transitivity (a +:+ " " +:+ b +:+ " " +:+ c +:+ ""); [by vm_compute|].
  by rewrite StrFacts.app_nil_r.
Qed.

(** C2, as the specification states it, fails for a version with a [v]
    after the first character: Script B removes that one too. *)
Lemma inner_v_is_removed :
  ¬ writes (Scoop.main ["packager.py"; "v1.0.0-dev"; "t.json"; "o.json"; "feed"]
                       (World {[ "t.json" := "${version64}" ]} ∅ []))
           "o.json" (strip_leading_v "v1.0.0-dev").
Proof. intros [_ Hw]. vm_compute in Hw. discriminate. Qed.

(** C2 (amended). For every version argument given to Script B, every
    occurrence of the character [v] is removed before substitution and
    the other characters are kept, in order.  So a version argument
    without any [v] is passed through unchanged, and of a leading [v]
    followed by such a text exactly the leading [v] is stripped
    (["v2.0.0"] becomes ["2.0.0"]). *)
Theorem version64_drops_every_v :
  ∀ (w : world) (tpl out prog rest h : string) (extra : list string),
    files w !! tpl = Some "${version64}" → out ∉ readonly w →
    Str.all not_v rest = true →
    (∀ version,
       writes (Scoop.main (prog :: version :: tpl :: out :: h :: extra) w) out
              (Str.filter not_v version))
    ∧ writes (Scoop.main (prog :: rest :: tpl :: out :: h :: extra) w) out rest
    ∧ writes (Scoop.main (prog :: String "v" rest :: tpl :: out :: h :: extra) w)
             out rest.
Proof.
  intros w tpl out prog rest h extra Ht Ho Hrest.
  assert (∀ version,
            writes (Scoop.main (prog :: version :: tpl :: out :: h :: extra) w)
                   out (Str.filter not_v version)) as Hall.
  { intros version.
    pose proof (ScoopFacts.scoop_main_writes prog version tpl out h extra
                  w _ Ht Ho) as Hw.
    by rewrite render_version64, replace_v in Hw. }
  split; [done|]. split.
  - rewrite <- (filter_all not_v rest Hrest) at 2. apply Hall.
  - rewrite <- (filter_all not_v rest Hrest) at 2. apply (Hall (String "v" rest)).
Qed.

Lemma version64_drops_every_v_witness :
  files version_world !! "t.json" = Some "${version64}"
  ∧ ("o.json" ∉ readonly version_world)
  ∧ Str.all not_v "2.0.0" = true
  ∧ writes (Scoop.main ["packager.py"; "2.0.0"; "t.json"; "o.json"; "feed"]
                       version_world)
           "o.json" "2.0.0"
  ∧ writes (Scoop.main ["packager.py"; "v2.0.0"; "t.json"; "o.json"; "feed"]
                       version_world)
           "o.json" "2.0.0".
Proof.
  split; [reflexivity|]. split; [apply not_elem_of_empty|].
  split; [reflexivity|].
  apply (version64_drops_every_v
           version_world "t.json" "o.json" "packager.py" "2.0.0" "feed" []);
    [reflexivity | apply not_elem_of_empty | reflexivity].
Defined.

(** C3. Every hash argument (positions 4 to 6 of Script A, position 4 of
    Script B) enters the substitution with its leading and trailing
    whitespace removed and nothing else changed: the substituted value is
    the argument without a run of whitespace at each end, and it neither
    starts nor ends with whitespace.  The input of two spaces, [abc123],
    two spaces and a newline is substituted as [abc123]. *)
Theorem hash_arguments_are_stripped :
  ∀ (w : world) (tplA tplB out prog version h1 h2 h3 : string)
    (extra : list string),
    files w !! tplA = Some "${hash_mac} ${hash_mac_arm} ${hash_linux}" →
    files w !! tplB = Some "${hash_64}" →
    out ∉ readonly w →
    writes (Homebrew.main
              (prog :: version :: tplA :: out :: h1 :: h2 :: h3 :: extra) w)
           out (strip h1 +:+ " " +:+ strip h2 +:+ " " +:+ strip h3)
    ∧ writes (Scoop.main (prog :: version :: tplB :: out :: h1 :: extra) w)
             out (strip h1)
    ∧ (∀ h, ∃ l r, h = l +:+ strip h +:+ r
                   ∧ Str.all isspace l = true ∧ Str.all isspace r = true
                   ∧ not_space (Str.head (strip h))
                   ∧ not_space (Str.last (strip h)))
    ∧ strip ("  abc123  " +:+ nl) = "abc123".
Proof.
  intros w tplA tplB out prog version h1 h2 h3 extra HA HB Ho.
  split; [|split; [|split; [apply strip_spec | reflexivity]]].
  - pose proof (HomebrewFacts.homebrew_main_writes prog version tplA out h1 h2 h3 extra
                  w _ HA Ho) as Hw.
    by rewrite render_hashes in Hw.
  - pose proof (ScoopFacts.scoop_main_writes prog version tplB out h1 extra
                  w _ HB Ho) as Hw.
    by rewrite render_hash_64 in Hw.
Qed.

Lemma hash_arguments_are_stripped_witness :
  files hash_world !! "a.rb" = Some "${hash_mac} ${hash_mac_arm} ${hash_linux}"
  ∧ files hash_world !! "b.json" = Some "${hash_64}"
  ∧ ("out" ∉ readonly hash_world)
  ∧ writes (Homebrew.main
              ["packager.py"; "1.0.0"; "a.rb"; "out";
               "  abc123  " +:+ nl; " de "; "f"] hash_world)
           "out"
           (strip ("  abc123  " +:+ nl) +:+ " " +:+ strip " de " +:+ " "
            +:+ strip "f").
Proof.
  split; [reflexivity|]. split; [reflexivity|].
  split; [apply not_elem_of_empty|].
  apply (hash_arguments_are_stripped
           hash_world "a.rb" "b.json" "out" "packager.py" "1.0.0"
           ("  abc123  " +:+ nl) " de " "f" []);
    [reflexivity | reflexivity | apply not_elem_of_empty].
Defined.

(** C10. Script A substitutes its version argument verbatim: for every
    version string the value bound to [version] is the raw argument,
    neither stripped of whitespace nor of any [v], and rendering the
    template [${version}] writes exactly that argument. *)
Theorem homebrew_version_is_verbatim :
  ∀ (w : world) (tpl out prog version h1 h2 h3 : string) (extra : list string),
    files w !! tpl = Some "${version}" → out ∉ readonly w →
    writes (Homebrew.main
              (prog :: version :: tpl :: out :: h1 :: h2 :: h3 :: extra) w)
           out version
    ∧ Homebrew.kwargs version (strip h1) (strip h2) (strip h3) !! "version"
      = Some version.
Proof.
  intros w tpl out prog version h1 h2 h3 extra Ht Ho. split; [|done].
  pose proof (HomebrewFacts.homebrew_main_writes prog version tpl out h1 h2 h3 extra
                w _ Ht Ho) as Hw.
  by rewrite render_version in Hw.
Qed.

Lemma homebrew_version_is_verbatim_witness :
  files (World {[ "t.rb" := "${version}" ]} ∅ []) !! "t.rb" = Some "${version}"
  ∧ ("o.rb" ∉ readonly (World {[ "t.rb" := "${version}" ]} ∅ []))
  ∧ writes (Homebrew.main
              ["packager.py"; " v1.0.0-dev "; "t.rb"; "o.rb"; "a"; "b"; "c"]
              (World {[ "t.rb" := "${version}" ]} ∅ []))
           "o.rb" " v1.0.0-dev ".
Proof.
  split; [reflexivity|]. split; [apply not_elem_of_empty|].
  apply (homebrew_version_is_verbatim
           (World {[ "t.rb" := "${version}" ]} ∅ [])
           "t.rb" "o.rb" "packager.py" " v1.0.0-dev " "a" "b" "c" []);
    [reflexivity | apply not_elem_of_empty].
Defined.

(** ** Failures *)

(** C4. With fewer arguments than the positions read (fewer than six
    after the program name for Script A, fewer than four for Script B)
    the run ends with an index error and leaves the environment as it
    was: no file is created, truncated or written, and nothing is
    printed. *)
Theorem missing_arguments_raise_index_error :
  ∀ (argsA argsB : list string) (w : world),
    length argsA < 7 → length argsB < 5 →
    Homebrew.main argsA w = (Raise IndexError, w)
    ∧ Scoop.main argsB w = (Raise IndexError, w).
Proof.
  intros argsA argsB w HA HB.
  split.
  - by apply HomebrewFacts.homebrew_main_short.
  - by apply ScoopFacts.scoop_main_short.
Qed.

Lemma missing_arguments_raise_index_error_witness :
  length ["packager.py"; "1.0.0"; "t.rb"; "o.rb"; "a"; "b"] < 7
  ∧ length ["packager.py"; "v1.0.0"; "t.json"; "o.json"] < 5
  ∧ Homebrew.main ["packager.py"; "1.0.0"; "t.rb"; "o.rb"; "a"; "b"] sample_world
    = (Raise IndexError, sample_world)
  ∧ Scoop.main ["packager.py"; "v1.0.0"; "t.json"; "o.json"] sample_world
    = (Raise IndexError, sample_world).
Proof.
  split; [simpl; lia|]. split; [simpl; lia|].
  apply (missing_arguments_raise_index_error
           ["packager.py"; "1.0.0"; "t.rb"; "o.rb"; "a"; "b"]
           ["packager.py"; "v1.0.0"; "t.json"; "o.json"] sample_world);
    simpl; lia.
Defined.

(** C9. When the template file is missing or unreadable, each script
    raises at the opening of the template: the files are as they were,
    the output file in particular is not created, truncated or modified,
    and the run has only printed; it has not opened anything for
    writing. *)
Theorem unreadable_template_leaves_output_untouched :
  ∀ (w : world) (tpl out prog version h1 h2 h3 : string) (extra : list string),
    files w !! tpl = None →
    (∃ prints,
       Homebrew.main (prog :: version :: tpl :: out :: h1 :: h2 :: h3 :: extra) w
       = (Raise (OSError tpl),
          World (files w) (readonly w) (trace w ++ (Print <$> prints))))
    ∧ (∃ prints,
         Scoop.main (prog :: version :: tpl :: out :: h1 :: extra) w
         = (Raise (OSError tpl),
            World (files w) (readonly w) (trace w ++ (Print <$> prints)))).
Proof.
  intros w tpl out prog version h1 h2 h3 extra Ht. split.
  - eexists. by apply HomebrewFacts.homebrew_main_unreadable.
  - eexists. by apply ScoopFacts.scoop_main_unreadable.
Qed.

Lemma unreadable_template_leaves_output_untouched_witness :
  files sample_world !! "missing.rb" = None
  ∧ ∃ prints,
      Homebrew.main ["packager.py"; "1.0.0"; "missing.rb"; "t.rb"; "a"; "b"; "c"]
                    sample_world
      = (Raise (OSError "missing.rb"),
         World (files sample_world) (readonly sample_world)
               (trace sample_world ++ (Print <$> prints))).
Proof.
  split; [reflexivity|].
  apply (unreadable_template_leaves_output_untouched
           sample_world "missing.rb" "t.rb" "packager.py" "1.0.0" "a" "b" "c" []).
  reflexivity.
Defined.

(** ** Determinism *)

(** C6. The rendered output depends on the template text and the
    argument list only: two runs of the same script with the same
    arguments, in any two environments where the template file holds the
    same text, both end without an error and write the same output,
    character for character. *)
Theorem rendering_is_deterministic :
  ∀ (w1 w2 : world) (tpl out text prog version h1 h2 h3 : string)
    (extra : list string),
    files w1 !! tpl = Some text → files w2 !! tpl = Some text →
    out ∉ readonly w1 → out ∉ readonly w2 →
    (∃ rendered,
       writes (Homebrew.main
                 (prog :: version :: tpl :: out :: h1 :: h2 :: h3 :: extra) w1)
              out rendered
       ∧ writes (Homebrew.main
                   (prog :: version :: tpl :: out :: h1 :: h2 :: h3 :: extra) w2)
                out rendered)
    ∧ (∃ rendered,
         writes (Scoop.main (prog :: version :: tpl :: out :: h1 :: extra) w1)
                out rendered
         ∧ writes (Scoop.main (prog :: version :: tpl :: out :: h1 :: extra) w2)
                  out rendered).
Proof.
  intros w1 w2 tpl out text prog version h1 h2 h3 extra Ht1 Ht2 Ho1 Ho2.
  split.
  - eexists. split; by apply HomebrewFacts.homebrew_main_writes.
  - eexists. split; by apply ScoopFacts.scoop_main_writes.
Qed.

Lemma rendering_is_deterministic_witness :
  files sample_world !! "t.rb" = Some sample_text
  ∧ files other_world !! "t.rb" = Some sample_text
  ∧ ("o.rb" ∉ readonly sample_world)
  ∧ ("o.rb" ∉ readonly other_world)
  ∧ (∃ rendered,
       writes (Homebrew.main
                 ["packager.py"; "1.0.0"; "t.rb"; "o.rb"; "a"; "b"; "c"]
                 sample_world)
              "o.rb" rendered
       ∧ writes (Homebrew.main
                   ["packager.py"; "1.0.0"; "t.rb"; "o.rb"; "a"; "b"; "c"]
                   other_world)
                "o.rb" rendered).
Proof.
  assert ("o.rb" ∉ readonly other_world) as Ho.
  { unfold other_world. simpl. by intros ?%elem_of_singleton. }
  split; [reflexivity|]. split; [reflexivity|].
  split; [apply not_elem_of_empty|]. split; [exact Ho|].
  exact (proj1 (rendering_is_deterministic
                  sample_world other_world "t.rb" "o.rb" sample_text
                  "packager.py" "1.0.0" "a" "b" "c" []
                  eq_refl eq_refl (not_elem_of_empty _) Ho)).
Defined.

(** Running a script again after a successful run, with the template
    file left in place, writes the same output once more. *)
Lemma homebrew_rerun prog version tpl out h1 h2 h3 extra w text rendered :
  files w !! tpl = Some text → out ∉ readonly w → tpl ≠ out →
  writes (Homebrew.main
            (prog :: version :: tpl :: out :: h1 :: h2 :: h3 :: extra) w)
         out rendered →
  writes (Homebrew.main
            (prog :: version :: tpl :: out :: h1 :: h2 :: h3 :: extra)
            (Homebrew.main
               (prog :: version :: tpl :: out :: h1 :: h2 :: h3 :: extra) w).2)
         out rendered.
Proof.
  intros Ht Ho Hne.
  destruct (HomebrewFacts.homebrew_main_spec prog version tpl out h1 h2 h3 extra
              w text Ht Ho) as [evs ->].
  intros [_ Hw]. simpl in Hw. rewrite lookup_insert_eq in Hw.
  injection Hw as <-. apply HomebrewFacts.homebrew_main_writes; [|done].
  simpl. by rewrite lookup_insert_ne.
Qed.

Lemma scoop_rerun prog version tpl out h extra w text rendered :
  files w !! tpl = Some text → out ∉ readonly w → tpl ≠ out →
  writes (Scoop.main (prog :: version :: tpl :: out :: h :: extra) w)
         out rendered →
  writes (Scoop.main (prog :: version :: tpl :: out :: h :: extra)
            (Scoop.main (prog :: version :: tpl :: out :: h :: extra) w).2)
         out rendered.
Proof.
  intros Ht Ho Hne.
  destruct (ScoopFacts.scoop_main_spec prog version tpl out h extra
              w text Ht Ho) as [evs ->].
  intros [_ Hw]. simpl in Hw. rewrite lookup_insert_eq in Hw.
  injection Hw as <-. apply ScoopFacts.scoop_main_writes; [|done].
  simpl. by rewrite lookup_insert_ne.
Qed.

(** ** Templates without a recognized placeholder *)

(** C5. For every template text in which no placeholder of the invoking
    script occurs, the rendered output is the template text with every
    escape [$$] rendered as one [$], as [text.replace("$$", "$")], and
    nothing else changed. *)
Theorem template_without_recognized_placeholder :
  ∀ (w : world) (tpl out text prog version h1 h2 h3 : string)
    (extra : list string) (its : list item),
    files w !! tpl = Some text → out ∉ readonly w → parses text its →
    (Forall (λ it, recognized (Homebrew.kwargs version (strip h1) (strip h2)
                                               (strip h3)) it = None) its →
     writes (Homebrew.main
               (prog :: version :: tpl :: out :: h1 :: h2 :: h3 :: extra) w)
            out (replace "$$" "$" text))
    ∧ (Forall (λ it, recognized (Scoop.kwargs (replace "v" "" version)
                                              (strip h1)) it = None) its →
       writes (Scoop.main (prog :: version :: tpl :: out :: h1 :: extra) w)
              out (replace "$$" "$" text)).
Proof.
  intros w tpl out text prog version h1 h2 h3 extra its Ht Ho Hp.
  split; intros Hno.
  - pose proof (HomebrewFacts.homebrew_main_writes prog version tpl out h1 h2 h3 extra
                  w _ Ht Ho) as Hw.
    by rewrite (safe_substitute_parses _ _ _ Hp),
               (rendered_unescape _ _ _ Hp Hno) in Hw.
  - pose proof (ScoopFacts.scoop_main_writes prog version tpl out h1 extra
                  w _ Ht Ho) as Hw.
    by rewrite (safe_substitute_parses _ _ _ Hp),
               (rendered_unescape _ _ _ Hp Hno) in Hw.
Qed.

Lemma template_without_recognized_placeholder_witness :
  files plain_world !! "t" = Some plain_text
  ∧ ("o" ∉ readonly plain_world)
  ∧ parses plain_text (lex plain_text)
  ∧ Forall (λ it, recognized (Homebrew.kwargs "1.0.0" (strip "a") (strip "b")
                                              (strip "c")) it = None)
           (lex plain_text)
  ∧ Forall (λ it, recognized (Scoop.kwargs (replace "v" "" "1.0.0")
                                           (strip "a")) it = None)
           (lex plain_text)
  ∧ writes (Homebrew.main ["packager.py"; "1.0.0"; "t"; "o"; "a"; "b"; "c"]
                          plain_world)
           "o" (replace "$$" "$" plain_text)
  ∧ writes (Scoop.main ["packager.py"; "1.0.0"; "t"; "o"; "a"] plain_world)
           "o" (replace "$$" "$" plain_text).
Proof.
  assert (Forall (λ it, recognized (Homebrew.kwargs "1.0.0" (strip "a")
                                      (strip "b") (strip "c")) it = None)
                 (lex plain_text)) as HA.
  { vm_compute. repeat constructor. }
  assert (Forall (λ it, recognized (Scoop.kwargs (replace "v" "" "1.0.0")
                                      (strip "a")) it = None)
                 (lex plain_text)) as HB.
  { vm_compute. repeat constructor. }
  split; [reflexivity|]. split; [apply not_elem_of_empty|].
  split; [apply lex_parses|]. split; [exact HA|]. split; [exact HB|].
  destruct (template_without_recognized_placeholder
              plain_world "t" "o" plain_text "packager.py" "1.0.0" "a" "b" "c"
              [] (lex plain_text) eq_refl (not_elem_of_empty _)
              (lex_parses plain_text)) as [HwA HwB].
  split; [exact (HwA HA) | exact (HwB HB)].
Defined.

(** ** End-to-end examples *)

(** C7. Script A, with the template
    [hash: ${hash_mac}, version: ${version}] and the arguments
    version [1.0.0], hash_mac [deadbeef] followed by a space,
    hash_mac_arm [x] and hash_linux [y], renders exactly
    [hash: deadbeef, version: 1.0.0]. *)
Theorem homebrew_end_to_end :
  ∀ (w : world) (tpl out prog : string) (extra : list string),
    files w !! tpl = Some "hash: ${hash_mac}, version: ${version}" →
    out ∉ readonly w →
    writes (Homebrew.main
              (prog :: "1.0.0" :: tpl :: out :: "deadbeef " :: "x" :: "y"
                    :: extra) w)
           out "hash: deadbeef, version: 1.0.0".
Proof.
  intros w tpl out prog extra Ht Ho.
  exact (HomebrewFacts.homebrew_main_writes prog "1.0.0" tpl out "deadbeef " "x" "y"
           extra w _ Ht Ho).
Qed.

Lemma homebrew_end_to_end_witness :
  files homebrew_example_world !! "formula.rb.template"
  = Some "hash: ${hash_mac}, version: ${version}"
  ∧ ("formula.rb" ∉ readonly homebrew_example_world)
  ∧ writes (Homebrew.main
              ["packager.py"; "1.0.0"; "formula.rb.template"; "formula.rb";
               "deadbeef "; "x"; "y"] homebrew_example_world)
           "formula.rb" "hash: deadbeef, version: 1.0.0".
Proof.
  split; [reflexivity|]. split; [apply not_elem_of_empty|].
  apply (homebrew_end_to_end homebrew_example_world
           "formula.rb.template" "formula.rb" "packager.py" []);
    [reflexivity | apply not_elem_of_empty].
Defined.

(** C8. Script B, with the template [v=${version64} h=${hash_64}] and
    the arguments version [v3.1.4] and hash_64 [feed], renders exactly
    [v=3.1.4 h=feed]. *)
Theorem scoop_end_to_end :
  ∀ (w : world) (tpl out prog : string) (extra : list string),
    files w !! tpl = Some "v=${version64} h=${hash_64}" →
    out ∉ readonly w →
    writes (Scoop.main (prog :: "v3.1.4" :: tpl :: out :: "feed" :: extra) w)
           out "v=3.1.4 h=feed".
Proof.
  intros w tpl out prog extra Ht Ho.
  exact (ScoopFacts.scoop_main_writes prog "v3.1.4" tpl out "feed" extra w _ Ht Ho).
Qed.

Lemma scoop_end_to_end_witness :
  files scoop_example_world !! "manifest.json.template"
  = Some "v=${version64} h=${hash_64}"
  ∧ ("manifest.json" ∉ readonly scoop_example_world)
  ∧ writes (Scoop.main
              ["packager.py"; "v3.1.4"; "manifest.json.template";
               "manifest.json"; "feed"] scoop_example_world)
           "manifest.json" "v=3.1.4 h=feed".
Proof.
  split; [reflexivity|]. split; [apply not_elem_of_empty|].
  apply (scoop_end_to_end scoop_example_world
           "manifest.json.template" "manifest.json" "packager.py" []);
    [reflexivity | apply not_elem_of_empty].
Defined.

(** * Further properties of the scripts *)

(** ** The output file and the other files *)

(** X1. When the template can be read but the output path cannot be
    opened for writing, each script raises the error of that [open]: no
    file is changed, the rendered text has already been printed, and
    nothing was opened for writing or written. *)
Theorem unwritable_output_raises_after_printing :
  ∀ (w : world) (tpl out text prog version h1 h2 h3 : string)
    (extra : list string),
    files w !! tpl = Some text → out ∈ readonly w →
    (∃ evs,
       Homebrew.main (prog :: version :: tpl :: out :: h1 :: h2 :: h3 :: extra) w
       = (Raise (OSError out), World (files w) (readonly w) (trace w ++ evs))
       ∧ Print (safe_substitute
                  (Homebrew.kwargs version (strip h1) (strip h2) (strip h3))
                  text) ∈ evs
       ∧ (∀ p, Open p W ∉ evs) ∧ (∀ p d, Write p d ∉ evs))
    ∧ (∃ evs,
         Scoop.main (prog :: version :: tpl :: out :: h1 :: extra) w
         = (Raise (OSError out), World (files w) (readonly w) (trace w ++ evs))
         ∧ Print (safe_substitute
                    (Scoop.kwargs (replace "v" "" version) (strip h1)) text)
           ∈ evs
         ∧ (∀ p, Open p W ∉ evs) ∧ (∀ p d, Write p d ∉ evs)).
Proof.
  intros w tpl out text prog version h1 h2 h3 extra Ht Ho. split.
  - eexists. split; [by apply HomebrewFacts.homebrew_main_unwritable|].
    split; [|split].
    + do 10 apply list_elem_of_further. apply list_elem_of_here.
    + intros p Hin.
      repeat (apply elem_of_cons in Hin as [[=]|Hin]).
      by apply elem_of_nil in Hin.
    + intros p d Hin.
      repeat (apply elem_of_cons in Hin as [[=]|Hin]).
      by apply elem_of_nil in Hin.
  - eexists. split; [by apply ScoopFacts.scoop_main_unwritable|].
    split; [|split].
    + do 8 apply list_elem_of_further. apply list_elem_of_here.
    + intros p Hin.
      repeat (apply elem_of_cons in Hin as [[=]|Hin]).
      by apply elem_of_nil in Hin.
    + intros p d Hin.
      repeat (apply elem_of_cons in Hin as [[=]|Hin]).
      by apply elem_of_nil in Hin.
Qed.

Lemma locked_output : "o.rb" ∈ readonly locked_world.
Proof. vm_compute. reflexivity. Defined.

Lemma unwritable_output_raises_after_printing_witness :
  files locked_world !! "t.rb" = Some sample_text
  ∧ "o.rb" ∈ readonly locked_world
  ∧ (∃ evs,
       Homebrew.main ["packager.py"; "1.0.0"; "t.rb"; "o.rb"; "a"; "b"; "c"]
                     locked_world
       = (Raise (OSError "o.rb"),
          World (files locked_world) (readonly locked_world)
                (trace locked_world ++ evs))
       ∧ Print (safe_substitute
                  (Homebrew.kwargs "1.0.0" (strip "a") (strip "b") (strip "c"))
                  sample_text) ∈ evs
       ∧ (∀ p, Open p W ∉ evs) ∧ (∀ p d, Write p d ∉ evs)).
Proof.
  split; [reflexivity|]. split; [exact locked_output|].
  exact (proj1 (unwritable_output_raises_after_printing
                  locked_world "t.rb" "o.rb" sample_text "packager.py" "1.0.0"
                  "a" "b" "c" [] eq_refl locked_output)).
Defined.



(** ** The arguments that matter *)

(** X3. The program name and the arguments after the last one a script
    reads (the sixth for Script A, the fourth for Script B) have no
    influence on a run: result, files and events are the same. *)
Theorem surplus_arguments_are_ignored :
  ∀ (prog prog' a1 a2 a3 a4 a5 a6 : string) (extra extra' : list string)
    (w : world),
    Homebrew.main (prog :: a1 :: a2 :: a3 :: a4 :: a5 :: a6 :: extra) w
    = Homebrew.main (prog' :: a1 :: a2 :: a3 :: a4 :: a5 :: a6 :: extra') w
    ∧ Scoop.main (prog :: a1 :: a2 :: a3 :: a4 :: extra) w
      = Scoop.main (prog' :: a1 :: a2 :: a3 :: a4 :: extra') w.
Proof. intros. split; reflexivity. Qed.

(** X4. The two scripts cannot tell an argument from its processed
    form: giving Script A hashes that are already stripped, or Script B
    a version already without [v] and a stripped hash, yields the same
    run (result, files and events) as the raw arguments. *)
Theorem processed_arguments_give_the_same_run :
  ∀ (prog version tpl out h1 h2 h3 : string) (extra : list string) (w : world),
    Homebrew.main (prog :: version :: tpl :: out :: h1 :: h2 :: h3 :: extra) w
    = Homebrew.main
        (prog :: version :: tpl :: out :: strip h1 :: strip h2 :: strip h3
              :: extra) w
    ∧ Scoop.main (prog :: version :: tpl :: out :: h1 :: extra) w
      = Scoop.main
          (prog :: replace "v" "" version :: tpl :: out :: strip h1 :: extra) w.
Proof.
  intros. split.
  - unfold Homebrew.main, mbind, M_bind, bind, getitem. simpl.
    by rewrite !strip_idem.
  - unfold Scoop.main, mbind, M_bind, bind, getitem. simpl.
    change (replace_from "v" "" 0) with (replace "v" "").
    by rewrite !strip_idem, !replace_v_idem.
Qed.

(** ** The events of a run *)

(** X5. A successful run prints the summary of its inputs, opens and
    reads the template, prints the rendered text between the two
    banners, and only then opens the output for writing and writes that
    same text, once. *)
Theorem successful_run_events :
  ∀ (w : world) (tpl out text prog version h1 h2 h3 : string)
    (extra : list string),
    files w !! tpl = Some text → out ∉ readonly w →
    trace (Homebrew.main
             (prog :: version :: tpl :: out :: h1 :: h2 :: h3 :: extra) w).2
    = trace w ++
        [Print "Generating formula";
         Print ("     VERSION: " +:+ version);
         Print ("     TEMPLATE PATH: " +:+ tpl);
         Print ("     SAVING AT: " +:+ out);
         Print ("     MAC HASH: " +:+ strip h1);
         Print ("     MAC ARM HASH: " +:+ strip h2);
         Print ("     LINUX HASH: " +:+ strip h3);
         Open tpl R; Read tpl;
         Print banner_top;
         Print (safe_substitute
                  (Homebrew.kwargs version (strip h1) (strip h2) (strip h3))
                  text);
         Print banner_bottom;
         Open out W;
         Write out
           (safe_substitute
              (Homebrew.kwargs version (strip h1) (strip h2) (strip h3)) text)]
    ∧ trace (Scoop.main (prog :: version :: tpl :: out :: h1 :: extra) w).2
      = trace w ++
          [Print "Generating formula";
           Print ("     VERSION: " +:+ replace "v" "" version);
           Print ("     TEMPLATE PATH: " +:+ tpl);
           Print ("     SAVING AT: " +:+ out);
           Print ("     HASH: " +:+ strip h1);
           Open tpl R; Read tpl;
           Print banner_top;
           Print (safe_substitute
                    (Scoop.kwargs (replace "v" "" version) (strip h1)) text);
           Print banner_bottom;
           Open out W;
           Write out
             (safe_substitute
                (Scoop.kwargs (replace "v" "" version) (strip h1)) text)].
Proof.
  intros w tpl out text prog version h1 h2 h3 extra Ht Ho. split.
  - by rewrite (HomebrewFacts.homebrew_main_events _ _ _ _ _ _ _ _ _ _ Ht Ho).
  - by rewrite (ScoopFacts.scoop_main_events _ _ _ _ _ _ _ _ Ht Ho).
Qed.

Lemma successful_run_events_witness :
  files scoop_example_world !! "manifest.json.template"
  = Some "v=${version64} h=${hash_64}"
  ∧ ("manifest.json" ∉ readonly scoop_example_world)
  ∧ trace (Scoop.main ["packager.py"; "v3.1.4"; "manifest.json.template";
                       "manifest.json"; " feed "] scoop_example_world).2
    = trace scoop_example_world ++
        [Print "Generating formula";
         Print ("     VERSION: " +:+ replace "v" "" "v3.1.4");
         Print ("     TEMPLATE PATH: " +:+ "manifest.json.template");
         Print ("     SAVING AT: " +:+ "manifest.json");
         Print ("     HASH: " +:+ strip " feed ");
         Open "manifest.json.template" R; Read "manifest.json.template";
         Print banner_top;
         Print (safe_substitute
                  (Scoop.kwargs (replace "v" "" "v3.1.4") (strip " feed "))
                  "v=${version64} h=${hash_64}");
         Print banner_bottom;
         Open "manifest.json" W;
         Write "manifest.json"
           (safe_substitute
              (Scoop.kwargs (replace "v" "" "v3.1.4") (strip " feed "))
              "v=${version64} h=${hash_64}")].
Proof.
  split; [reflexivity|]. split; [apply not_elem_of_empty|].
  exact (proj2 (successful_run_events
                  scoop_example_world "manifest.json.template" "manifest.json"
                  "v=${version64} h=${hash_64}" "packager.py" "v3.1.4"
                  " feed " "" "" [] eq_refl (not_elem_of_empty _))).
Defined.

(** ** Running again *)






(** ** Substitution *)

(** X8. The rendered text depends on the substitution map only through
    the placeholders that occur in the template: two maps that give the
    same value, or both none, to every placeholder of the template
    render it alike. *)
Theorem substitution_uses_only_occurring_names :
  ∀ (m1 m2 : gmap string string) (text : string) (its : list item),
    parses text its →
    Forall (λ it, recognized m1 it = recognized m2 it) its →
    safe_substitute m1 text = safe_substitute m2 text.
Proof.
  intros m1 m2 text its Hp Hag.
  rewrite !(safe_substitute_parses _ _ _ Hp). apply rendered_agree.
  intros it id Hin Hph. rewrite Forall_forall in Hag.
  specialize (Hag it Hin). unfold recognized in Hag.
  by rewrite Hph in Hag.
Qed.

Lemma substitution_uses_only_occurring_names_witness :
  parses "url ${version} $hash_mac $$ ${other}"
         (lex "url ${version} $hash_mac $$ ${other}")
  ∧ Forall (λ it, recognized (Homebrew.kwargs "1.0.0" "ab" "cd" "ef") it
                  = recognized (Homebrew.kwargs "1.0.0" "ab" "xx" "yy") it)
           (lex "url ${version} $hash_mac $$ ${other}")
  ∧ safe_substitute (Homebrew.kwargs "1.0.0" "ab" "cd" "ef")
                    "url ${version} $hash_mac $$ ${other}"
    = safe_substitute (Homebrew.kwargs "1.0.0" "ab" "xx" "yy")
                      "url ${version} $hash_mac $$ ${other}".
Proof.
  assert (Forall (λ it, recognized (Homebrew.kwargs "1.0.0" "ab" "cd" "ef") it
                        = recognized (Homebrew.kwargs "1.0.0" "ab" "xx" "yy") it)
                 (lex "url ${version} $hash_mac $$ ${other}")) as Hag.
  { vm_compute. repeat constructor. }
  split; [apply lex_parses|]. split; [exact Hag|].
  exact (substitution_uses_only_occurring_names
           (Homebrew.kwargs "1.0.0" "ab" "cd" "ef")
           (Homebrew.kwargs "1.0.0" "ab" "xx" "yy")
           "url ${version} $hash_mac $$ ${other}"
           (lex "url ${version} $hash_mac $$ ${other}")
           (lex_parses _) Hag).
Defined.

(** X9. A placeholder whose name is a key of the map is replaced by the
    value as it is, even when the value itself holds a delimiter or a
    placeholder, and the text after it is rendered on its own.  The
    braced form is replaced whatever follows; the bare form [$name] is
    replaced like it where the text that follows does not continue the
    name. *)
Theorem recognized_placeholder_then_rest :
  ∀ (mapping : gmap string string) (id v rest : string),
    is_identifier id = true → mapping !! id = Some v →
    id_continues rest = false →
    (∀ t, safe_substitute mapping
            (String delimiter (String "{" (id +:+ String "}" t)))
          = v +:+ safe_substitute mapping t)
    ∧ safe_substitute mapping (String delimiter (id +:+ rest))
      = v +:+ safe_substitute mapping rest.
Proof.
  intros mapping id v rest Hid Hv Hrest. split.
  - intros t. rewrite (safe_substitute_braced _ _ _ Hid). simpl. by rewrite Hv.
  - rewrite (safe_substitute_named _ _ _ Hid Hrest). simpl. by rewrite Hv.
Qed.

Lemma recognized_placeholder_then_rest_witness :
  is_identifier "version" = true
  ∧ Homebrew.kwargs "${hash_mac}$$" "a" "b" "c" !! "version"
    = Some "${hash_mac}$$"
  ∧ id_continues "-x86 $$" = false
  ∧ safe_substitute (Homebrew.kwargs "${hash_mac}$$" "a" "b" "c")
                    (String delimiter ("version" +:+ "-x86 $$"))
    = "${hash_mac}$$"
      +:+ safe_substitute (Homebrew.kwargs "${hash_mac}$$" "a" "b" "c")
                          "-x86 $$".
Proof.
  split; [reflexivity|]. split; [reflexivity|]. split; [reflexivity|].
  exact (proj2 (recognized_placeholder_then_rest
                  (Homebrew.kwargs "${hash_mac}$$" "a" "b" "c")
                  "version" "${hash_mac}$$" "-x86 $$"
                  eq_refl eq_refl eq_refl)).
Defined.

(** ** Edge cases of the arguments *)

(** X10. Whatever version argument Script B is given, the text it
    substitutes for [version64] holds no [v] at all: a version such as
    [1.0.0-dev] cannot be rendered as it is. *)
Theorem version64_never_holds_a_v :
  ∀ (w : world) (tpl out prog version h : string) (extra : list string),
    files w !! tpl = Some "${version64}" → out ∉ readonly w →
    ∃ rendered,
      writes (Scoop.main (prog :: version :: tpl :: out :: h :: extra) w)
             out rendered
      ∧ Str.all not_v rendered = true.
Proof.
  intros w tpl out prog version h extra Ht Ho.
  exists (Str.filter not_v version). split; [|apply all_filter].
  pose proof (ScoopFacts.scoop_main_writes prog version tpl out h extra
                w _ Ht Ho) as Hw.
  by rewrite render_version64, replace_v in Hw.
Qed.

Lemma version64_never_holds_a_v_witness :
  files version_world !! "t.json" = Some "${version64}"
  ∧ ("o.json" ∉ readonly version_world)
  ∧ (∃ rendered,
       writes (Scoop.main ["packager.py"; "1.0.0-dev"; "t.json"; "o.json"; "h"]
                          version_world)
              "o.json" rendered
       ∧ Str.all not_v rendered = true).
Proof.
  split; [reflexivity|]. split; [apply not_elem_of_empty|].
  exact (version64_never_holds_a_v
           version_world "t.json" "o.json" "packager.py" "1.0.0-dev" "h" []
           eq_refl (not_elem_of_empty _)).
Defined.

(** X11. A hash argument made of a text between two runs of whitespace,
    the text itself neither starting nor ending with whitespace, is
    substituted as exactly that text; in particular a hash argument that
    is empty or all whitespace is substituted as the empty text, without
    an error. *)
Theorem hash_between_whitespace :
  ∀ (w : world) (tplA tplB out prog version l m r h2 h3 : string)
    (extra : list string),
    files w !! tplA = Some "${hash_mac} ${hash_mac_arm} ${hash_linux}" →
    files w !! tplB = Some "${hash_64}" →
    out ∉ readonly w →
    Str.all isspace l = true → Str.all isspace r = true →
    not_space (Str.head m) → not_space (Str.last m) →
    writes (Homebrew.main
              (prog :: version :: tplA :: out :: (l +:+ m +:+ r) :: h2 :: h3
                    :: extra) w)
           out (m +:+ " " +:+ strip h2 +:+ " " +:+ strip h3)
    ∧ writes (Scoop.main
                (prog :: version :: tplB :: out :: (l +:+ m +:+ r) :: extra) w)
             out m
    ∧ writes (Scoop.main (prog :: version :: tplB :: out :: (l +:+ r) :: extra)
                         w)
             out "".
Proof.
  intros w tplA tplB out prog version l m r h2 h3 extra HA HB Ho Hl Hr Hh Hlast.
  split; [|split].
  - pose proof (HomebrewFacts.homebrew_main_writes prog version tplA out
                  (l +:+ m +:+ r) h2 h3 extra w _ HA Ho) as Hw.
    by rewrite render_hashes, (strip_middle _ _ _ Hl Hr Hh Hlast) in Hw.
  - pose proof (ScoopFacts.scoop_main_writes prog version tplB out
                  (l +:+ m +:+ r) extra w _ HB Ho) as Hw.
    by rewrite render_hash_64, (strip_middle _ _ _ Hl Hr Hh Hlast) in Hw.
  - pose proof (ScoopFacts.scoop_main_writes prog version tplB out
                  (l +:+ r) extra w _ HB Ho) as Hw.
    rewrite render_hash_64 in Hw.
    assert (strip (l +:+ r) = "") as Hs.
    { apply (strip_middle l "" r); [done|done|by intros ?|by intros ?]. }
    by rewrite Hs in Hw.
Qed.

Lemma abc_starts_without_space : not_space (Str.head "abc 123").
Proof. intros c [= <-]. reflexivity. Defined.

Lemma abc_ends_without_space : not_space (Str.last "abc 123").
Proof. intros c [= <-]. reflexivity. Defined.

Lemma hash_between_whitespace_witness :
  files hash_world !! "a.rb" = Some "${hash_mac} ${hash_mac_arm} ${hash_linux}"
  ∧ files hash_world !! "b.json" = Some "${hash_64}"
  ∧ ("out" ∉ readonly hash_world)
  ∧ Str.all isspace "  " = true
  ∧ Str.all isspace (" " +:+ nl) = true
  ∧ not_space (Str.head "abc 123")
  ∧ not_space (Str.last "abc 123")
  ∧ writes (Scoop.main
              ["packager.py"; "1.0.0"; "b.json"; "out";
               "  " +:+ "abc 123" +:+ " " +:+ nl] hash_world)
           "out" "abc 123".
Proof.
  split; [reflexivity|]. split; [reflexivity|].
  split; [apply not_elem_of_empty|].
  split; [reflexivity|]. split; [reflexivity|].
  split; [exact abc_starts_without_space|].
  split; [exact abc_ends_without_space|].
  exact (proj1 (proj2 (hash_between_whitespace
                         hash_world "a.rb" "b.json" "out" "packager.py" "1.0.0"
                         "  " "abc 123" (" " +:+ nl) "" "" []
                         eq_refl eq_refl (not_elem_of_empty _)
                         eq_refl eq_refl
                         abc_starts_without_space abc_ends_without_space))).
Defined.

(** ** Edge cases of the template *)

(** X12. A template without any delimiter [$], the empty template
    included, is written to the output exactly as it is, whatever the
    arguments. *)
Theorem template_without_delimiter_is_copied :
  ∀ (w : world) (tpl out text prog version h1 h2 h3 : string)
    (extra : list string),
    files w !! tpl = Some text → out ∉ readonly w →
    Str.all not_delimiter text = true →
    writes (Homebrew.main
              (prog :: version :: tpl :: out :: h1 :: h2 :: h3 :: extra) w)
           out text
    ∧ writes (Scoop.main (prog :: version :: tpl :: out :: h1 :: extra) w)
             out text.
Proof.
  intros w tpl out text prog version h1 h2 h3 extra Ht Ho Hplain. split.
  - pose proof (HomebrewFacts.homebrew_main_writes prog version tpl out
                  h1 h2 h3 extra w _ Ht Ho) as Hw.
    by rewrite (safe_substitute_plain _ _ Hplain) in Hw.
  - pose proof (ScoopFacts.scoop_main_writes prog version tpl out
                  h1 extra w _ Ht Ho) as Hw.
    by rewrite (safe_substitute_plain _ _ Hplain) in Hw.
Qed.

Lemma template_without_delimiter_is_copied_witness :
  files no_delimiter_world !! "t" = Some "version {version} hash_mac"
  ∧ ("o" ∉ readonly no_delimiter_world)
  ∧ Str.all not_delimiter "version {version} hash_mac" = true
  ∧ writes (Homebrew.main ["packager.py"; "1.0.0"; "t"; "o"; "a"; "b"; "c"]
                          no_delimiter_world)
           "o" "version {version} hash_mac"
  ∧ writes (Scoop.main ["packager.py"; "1.0.0"; "t"; "o"; "a"]
                       no_delimiter_world)
           "o" "version {version} hash_mac".
Proof.
  split; [reflexivity|]. split; [apply not_elem_of_empty|].
  split; [reflexivity|].
  exact (template_without_delimiter_is_copied
           no_delimiter_world "t" "o" "version {version} hash_mac"
           "packager.py" "1.0.0" "a" "b" "c" []
           eq_refl (not_elem_of_empty _) eq_refl).
Defined.

(** X13. A placeholder whose name is not a key of the map is copied as
    it is, and the text after it is rendered on its own; names are
    compared exactly, so a name that differs from a key only by the case
    of its letters is not replaced. *)
Theorem unrecognized_placeholder_then_rest :
  ∀ (mapping : gmap string string) (id rest : string),
    is_identifier id = true → mapping !! id = None →
    id_continues rest = false →
    (∀ t, safe_substitute mapping
            (String delimiter (String "{" (id +:+ String "}" t)))
          = String delimiter (String "{" (id +:+ String "}"
                                             (safe_substitute mapping t))))
    ∧ safe_substitute mapping (String delimiter (id +:+ rest))
      = String delimiter (id +:+ safe_substitute mapping rest).
Proof.
  intros mapping id rest Hid Hnone Hrest. split.
  - intros t. rewrite (safe_substitute_braced _ _ _ Hid). simpl.
    rewrite Hnone. by rewrite !StrFacts.app_cons, StrFacts.app_assoc.
  - rewrite (safe_substitute_named _ _ _ Hid Hrest). simpl. by rewrite Hnone.
Qed.

Lemma unrecognized_placeholder_then_rest_witness :
  is_identifier "VERSION" = true
  ∧ Homebrew.kwargs "1.0.0" "a" "b" "c" !! "VERSION" = None
  ∧ id_continues " ${version}" = false
  ∧ safe_substitute (Homebrew.kwargs "1.0.0" "a" "b" "c")
                    (String delimiter ("VERSION" +:+ " ${version}"))
    = String delimiter
        ("VERSION" +:+ safe_substitute (Homebrew.kwargs "1.0.0" "a" "b" "c")
                                       " ${version}").
Proof.
  split; [reflexivity|]. split; [reflexivity|]. split; [reflexivity|].
  exact (proj2 (unrecognized_placeholder_then_rest
                  (Homebrew.kwargs "1.0.0" "a" "b" "c") "VERSION" " ${version}"
                  eq_refl eq_refl eq_refl)).
Defined.

(** X14. Text without a delimiter is copied and has no influence on the
    rendering of what follows it; an escape [$$] renders as one [$] and
    shields such a text after it, so [$$name] renders as [$name] and
    never as the value of [name]. *)
Theorem plain_text_and_escape_then_rest :
  ∀ (mapping : gmap string string) (plain t : string),
    Str.all not_delimiter plain = true →
    safe_substitute mapping (plain +:+ t)
    = plain +:+ safe_substitute mapping t
    ∧ safe_substitute mapping
        (String delimiter (String delimiter (plain +:+ t)))
      = String delimiter (plain +:+ safe_substitute mapping t).
Proof.
  intros mapping plain t Hplain.
  split; [by apply safe_substitute_plain_app|].
  by rewrite safe_substitute_escaped, safe_substitute_plain_app.
Qed.

Lemma plain_text_and_escape_then_rest_witness :
  Str.all not_delimiter "version" = true
  ∧ safe_substitute (Homebrew.kwargs "1.0.0" "a" "b" "c")
      (String delimiter (String delimiter ("version" +:+ " is ${version}")))
    = String delimiter
        ("version" +:+ safe_substitute (Homebrew.kwargs "1.0.0" "a" "b" "c")
                                       " is ${version}").
Proof.
  split; [reflexivity|].
  exact (proj2 (plain_text_and_escape_then_rest
                  (Homebrew.kwargs "1.0.0" "a" "b" "c") "version"
                  " is ${version}" eq_refl)).
Defined.
